(** * King Street pilot dashboard: the state-and-derivation core of [app.py]

    A shallow embedding of the functions of [app.py] that decide what
    the dashboard shows, with the properties proved about them.

    - Python [str] values are Rocq strings (code points below 256).
    - Python [int] values are [Z].
    - Travel times are binary64 floats (Rocq's primitive floats).
    - Values produced by [json.loads] live in the type [json]. *)

From Stdlib Require Import ZArith List Bool Ascii String Lia.
From Stdlib Require Import Floats.
From Stdlib Require Uint63.
From Stdlib Require Import Decimal DecimalString DecimalFacts DecimalPos DecimalZ.
From Stdlib Require Import Sorted Permutation.
Import ListNotations.

Set Warnings "-register-all,-inexact-float".

Local Open Scope string_scope.

(** ** Outcomes of Python code

    A call returns a value or raises.  [OutOfModel] marks the inputs on
    which Python would build a value this development has no type for
    (a float read from JSON text, a code point above 255). *)

Inductive exn : Type :=
| JSONDecodeError | KeyError | TypeError | AttributeError | IndexError.

Inductive outcome (A : Type) : Type :=
| Ok (a : A)
| Raise (e : exn)
| OutOfModel.

Arguments Ok {A} a.
Arguments Raise {A} e.
Arguments OutOfModel {A}.

Definition bind {A B : Type} (m : outcome A) (k : A -> outcome B) : outcome B :=
  match m with
  | Ok a => k a
  | Raise e => Raise e
  | OutOfModel => OutOfModel
  end.

Notation "x <- m ;; k" := (bind m (fun x => k))
  (at level 61, m at next level, right associativity).
Notation "' p <- m ;; k" := (bind m (fun p => k))
  (at level 61, p pattern, m at next level, right associativity).

(** ** The [json] library, as [app.py] uses it

    [json.dumps] with its default separators and [ensure_ascii], and
    [json.loads] with [object_pairs_hook=OrderedDict], following the
    library's pure-Python encoder and scanner. *)

Module Json.

Inductive json : Type :=
| JNull
| JBool (b : bool)
| JInt (z : Z)
| JStr (s : string)
| JArr (l : list json)
| JObj (l : list (string * json)).

(** The double quote. *)
Definition dq : ascii := "034"%char.

(** *** Strings: [py_encode_basestring_ascii] *)

Definition hex_digit (n : N) : ascii :=
  match n with
  | 0 => "0" | 1 => "1" | 2 => "2" | 3 => "3" | 4 => "4" | 5 => "5"
  | 6 => "6" | 7 => "7" | 8 => "8" | 9 => "9" | 10 => "a" | 11 => "b"
  | 12 => "c" | 13 => "d" | 14 => "e" | _ => "f"
  end%N%char.

(** ['\\u{0:04x}'.format(n)] for a code point below 256. *)
Definition escape_u (c : ascii) : string :=
  let n := N_of_ascii c in
  String "\" (String "u" (String "0" (String "0"
    (String (hex_digit (n / 16)) (String (hex_digit (n mod 16)) ""))))).

(** [ESCAPE_DCT], and the fallback of [replace]; a character matches
    [ESCAPE_ASCII] when it is a backslash, a double quote, or outside
    the range from space to tilde. *)
Definition encode_char (c : ascii) : string :=
  if (c =? "\")%char then "\\"
  else if (c =? dq)%char then String "\" (String dq "")
  else if (c =? "008")%char then "\b"
  else if (c =? "012")%char then "\f"
  else if (c =? "010")%char then "\n"
  else if (c =? "013")%char then "\r"
  else if (c =? "009")%char then "\t"
  else if (N_of_ascii c <? 32)%N || (126 <? N_of_ascii c)%N then escape_u c
  else String c "".

Fixpoint encode_chars (s : string) : string :=
  match s with
  | EmptyString => ""
  | String c r => encode_char c ++ encode_chars r
  end.

Definition encode_basestring_ascii (s : string) : string :=
  String dq (encode_chars s ++ String dq "").

(** *** Strings: [py_scanstring], strict *)

Definition hex_val (c : ascii) : option N :=
  let n := N_of_ascii c in
  if (48 <=? n)%N && (n <=? 57)%N then Some (n - 48)%N
  else if (97 <=? n)%N && (n <=? 102)%N then Some (n - 87)%N
  else if (65 <=? n)%N && (n <=? 70)%N then Some (n - 55)%N
  else None.

(** [_decode_uXXXX]: four hexadecimal digits. *)
Definition decode_uXXXX (h1 h2 h3 h4 : ascii) : option N :=
  match hex_val h1, hex_val h2, hex_val h3, hex_val h4 with
  | Some a, Some b, Some c, Some d => Some (((a * 16 + b) * 16 + c) * 16 + d)%N
  | _, _, _, _ => None
  end.

(** The table [BACKSLASH]. *)
Definition BACKSLASH (e : ascii) : option ascii :=
  if (e =? dq)%char then Some dq
  else if (e =? "\")%char then Some "\"%char
  else if (e =? "/")%char then Some "/"%char
  else if (e =? "b")%char then Some "008"%char
  else if (e =? "f")%char then Some "012"%char
  else if (e =? "n")%char then Some "010"%char
  else if (e =? "r")%char then Some "013"%char
  else if (e =? "t")%char then Some "009"%char
  else None.

Definition prepend (c : ascii) (m : outcome (string * string))
  : outcome (string * string) :=
  '(s, r) <- m ;; Ok (String c s, r).

(** [scanstring s] reads a string body up to its closing quote; [s]
    starts just after the opening quote.  Returns the decoded string
    and the text after the closing quote. *)
Fixpoint scanstring (s : string) : outcome (string * string) :=
  match s with
  | EmptyString => Raise JSONDecodeError
  | String c r =>
      if (c =? dq)%char then Ok ("", r)
      else if (c =? "\")%char then
        match r with
        | EmptyString => Raise JSONDecodeError
        | String e r1 =>
            if (e =? "u")%char then
              match r1 with
              | String h1 (String h2 (String h3 (String h4 r2))) =>
                  match decode_uXXXX h1 h2 h3 h4 with
                  | Some n =>
                      if (n <? 256)%N then prepend (ascii_of_N n) (scanstring r2)
                      else OutOfModel
                  | None => Raise JSONDecodeError
                  end
              | _ => Raise JSONDecodeError
              end
            else
              match BACKSLASH e with
              | Some ch => prepend ch (scanstring r1)
              | None => Raise JSONDecodeError
              end
        end
      else if (N_of_ascii c <? 32)%N then Raise JSONDecodeError
      else prepend c (scanstring r)
  end.

(** *** Numbers *)

(** [int.__repr__]. *)
Definition repr_int (z : Z) : string := NilZero.string_of_int (Z.to_int z).

(** [int(text)] on a decimal literal. *)
Definition py_int (text : string) : option Z :=
  option_map Z.of_int (NilZero.int_of_string text).

Definition is_digit (c : ascii) : bool :=
  let n := N_of_ascii c in (48 <=? n)%N && (n <=? 57)%N.

Fixpoint span_digits (s : string) : string * string :=
  match s with
  | String c r =>
      if is_digit c then let '(ds, r') := span_digits r in (String c ds, r')
      else ("", s)
  | EmptyString => ("", "")
  end.

(** The first group of [NUMBER_RE] (an optional minus sign, then a
    single zero or a non-zero digit followed by digits), and the text
    after it. *)
Definition match_integer (s : string) : option (string * string) :=
  let '(sign, s1) :=
    match s with
    | String c r => if (c =? "-")%char then ("-", r) else ("", s)
    | EmptyString => ("", s)
    end in
  match s1 with
  | String c r =>
      if (c =? "0")%char then Some (sign ++ "0", r)
      else if is_digit c then
        let '(ds, r') := span_digits r in Some (sign ++ String c ds, r')
      else None
  | EmptyString => None
  end.

(** The fraction and exponent groups of [NUMBER_RE]: when either
    matches, the literal is a float. *)
Definition has_frac (s : string) : bool :=
  match s with
  | String c (String d _) => (c =? ".")%char && is_digit d
  | _ => false
  end.

Definition has_exp (s : string) : bool :=
  match s with
  | String e (String c r) =>
      ((e =? "e")%char || (e =? "E")%char) &&
      (is_digit c ||
       (((c =? "+")%char || (c =? "-")%char) &&
        match r with String d _ => is_digit d | EmptyString => false end))
  | _ => false
  end.

(** *** [OrderedDict] *)

(** [d[k] = v] on an insertion-ordered dict: an existing key keeps its
    place, a new key goes last. *)
Fixpoint od_set (k : string) (v : json) (d : list (string * json))
  : list (string * json) :=
  match d with
  | [] => [(k, v)]
  | (k', v') :: r => if (k' =? k)%string then (k', v) :: r
                     else (k', v') :: od_set k v r
  end.

Fixpoint od_get (k : string) (d : list (string * json)) : option json :=
  match d with
  | [] => None
  | (k', v') :: r => if (k' =? k)%string then Some v' else od_get k r
  end.

(** [OrderedDict(pairs)]. *)
Definition OrderedDict (pairs : list (string * json)) : list (string * json) :=
  fold_left (fun d kv => od_set (fst kv) (snd kv) d) pairs [].

(** *** [json.dumps] *)

Fixpoint json_dumps (v : json) : string :=
  match v with
  | JNull => "null"
  | JBool b => if b then "true" else "false"
  | JInt z => repr_int z
  | JStr s => encode_basestring_ascii s
  | JArr l => "[" ++ String.concat ", " (map json_dumps l) ++ "]"
  | JObj l =>
      "{" ++ String.concat ", "
               (map (fun kv => encode_basestring_ascii (fst kv) ++ ": "
                               ++ json_dumps (snd kv)) l) ++ "}"
  end.

(** *** [json.loads] *)

Definition is_ws (c : ascii) : bool :=
  (c =? " ")%char || (c =? "009")%char || (c =? "010")%char || (c =? "013")%char.

(** [WHITESPACE.match(s, end).end()]. *)
Fixpoint skip_ws (s : string) : string :=
  match s with
  | String c r => if is_ws c then skip_ws r else s
  | EmptyString => s
  end.

Fixpoint strip_prefix (p s : string) : option string :=
  match p, s with
  | EmptyString, _ => Some s
  | String a p', String b s' => if (a =? b)%char then strip_prefix p' s' else None
  | String _ _, EmptyString => None
  end.

(** The number branch of [_scan_once] and the constants after it. *)
Definition scan_number (s : string) : outcome (json * string) :=
  match match_integer s with
  | Some (lexeme, r) =>
      if has_frac r || has_exp r then OutOfModel
      else match py_int lexeme with
           | Some z => Ok (JInt z, r)
           | None => Raise JSONDecodeError
           end
  | None =>
      if String.prefix "NaN" s || String.prefix "Infinity" s
         || String.prefix "-Infinity" s
      then OutOfModel
      else Raise JSONDecodeError
  end.

(** [_scan_once], [JSONObject] and [JSONArray].  Every call consumes a
    character before it recurses, so [fuel] above the length of the
    text is never exhausted.  [object_members] starts just after the
    opening quote of a key, [array_elements] at the start of a value. *)
Fixpoint scan_once (fuel : nat) (s : string) {struct fuel}
  : outcome (json * string) :=
  match fuel with
  | O => Raise JSONDecodeError
  | S fuel' =>
      match s with
      | EmptyString => Raise JSONDecodeError
      | String c r =>
          if (c =? dq)%char then
            '(str, r') <- scanstring r ;; Ok (JStr str, r')
          else if (c =? "{")%char then
            match skip_ws r with
            | String c1 r1 =>
                if (c1 =? "}")%char then Ok (JObj (OrderedDict []), r1)
                else if (c1 =? dq)%char then
                  '(pairs, r') <- object_members fuel' r1 ;;
                  Ok (JObj (OrderedDict pairs), r')
                else Raise JSONDecodeError
            | EmptyString => Raise JSONDecodeError
            end
          else if (c =? "[")%char then
            match skip_ws r with
            | String c1 r1 =>
                if (c1 =? "]")%char then Ok (JArr [], r1)
                else
                  '(values, r') <- array_elements fuel' (String c1 r1) ;;
                  Ok (JArr values, r')
            | EmptyString => Raise JSONDecodeError
            end
          else
            match strip_prefix "null" s with
            | Some r' => Ok (JNull, r')
            | None =>
                match strip_prefix "true" s with
                | Some r' => Ok (JBool true, r')
                | None =>
                    match strip_prefix "false" s with
                    | Some r' => Ok (JBool false, r')
                    | None => scan_number s
                    end
                end
            end
      end
  end
with object_members (fuel : nat) (s : string) {struct fuel}
  : outcome (list (string * json) * string) :=
  match fuel with
  | O => Raise JSONDecodeError
  | S fuel' =>
      '(key, s1) <- scanstring s ;;
      match skip_ws s1 with
      | String c r =>
          if (c =? ":")%char then
            '(value, s2) <- scan_once fuel' (skip_ws r) ;;
            match skip_ws s2 with
            | String c2 r2 =>
                if (c2 =? "}")%char then Ok ([(key, value)], r2)
                else if (c2 =? ",")%char then
                  match skip_ws r2 with
                  | String c3 r3 =>
                      if (c3 =? dq)%char then
                        '(pairs, r') <- object_members fuel' r3 ;;
                        Ok ((key, value) :: pairs, r')
                      else Raise JSONDecodeError
                  | EmptyString => Raise JSONDecodeError
                  end
                else Raise JSONDecodeError
            | EmptyString => Raise JSONDecodeError
            end
          else Raise JSONDecodeError
      | EmptyString => Raise JSONDecodeError
      end
  end
with array_elements (fuel : nat) (s : string) {struct fuel}
  : outcome (list json * string) :=
  match fuel with
  | O => Raise JSONDecodeError
  | S fuel' =>
      '(value, s1) <- scan_once fuel' s ;;
      match skip_ws s1 with
      | String c r =>
          if (c =? "]")%char then Ok ([value], r)
          else if (c =? ",")%char then
            '(values, r') <- array_elements fuel' (skip_ws r) ;;
            Ok (value :: values, r')
          else Raise JSONDecodeError
      | EmptyString => Raise JSONDecodeError
      end
  end.

(** [json.loads(s, object_pairs_hook=OrderedDict)]: [JSONDecoder.decode]. *)
Definition json_loads (s : string) : outcome json :=
  '(obj, r) <- scan_once (S (String.length s)) (skip_ws s) ;;
  match skip_ws r with
  | EmptyString => Ok obj
  | String _ _ => Raise JSONDecodeError
  end.

End Json.

Import Json.

(** ** Python operations on decoded values *)

(** [v[k]] for a [str] key: a dict looks the key up, anything else
    json.loads can return refuses a string subscript. *)
Definition getitem (v : json) (k : string) : outcome json :=
  match v with
  | JObj d => match od_get k d with
              | Some x => Ok x
              | None => Raise KeyError
              end
  | _ => Raise TypeError
  end.

(** [v[k] = x] for a [str] key. *)
Definition setitem (v : json) (k : string) (x : json) : outcome json :=
  match v with
  | JObj d => Ok (JObj (od_set k x d))
  | _ => Raise TypeError
  end.

(** [v.items()]; [v.values()] and [v.keys()] are its projections. *)
Definition items (v : json) : outcome (list (string * json)) :=
  match v with
  | JObj d => Ok d
  | _ => Raise AttributeError
  end.

(** Truth value of an object in a condition. *)
Definition truth (v : json) : bool :=
  match v with
  | JNull => false
  | JBool b => b
  | JInt z => negb (z =? 0)%Z
  | JStr s => negb (s =? "")%string
  | JArr l => match l with [] => false | _ => true end
  | JObj d => match d with [] => false | _ => true end
  end.

(** [n > v] for an int [n]: defined against an int or a bool only. *)
Definition int_gt (n : Z) (v : json) : outcome bool :=
  match v with
  | JInt z => Ok (z <? n)%Z
  | JBool b => Ok ((if b then 1 else 0) <? n)%Z
  | _ => Raise TypeError
  end.

(** ** Constants (lines 15-25) *)

Definition STREETS : list string :=
  ["Dundas"; "Queen"; "Adelaide"; "Richmond"; "Wellington"; "Front"].

Definition DIRECTIONS : list (string * string) :=
  [("EB", "Eastbound"); ("WB", "Westbound")].

(** [d[k]] on a dict of strings; [None] stands for [KeyError]. *)
Fixpoint lookup (k : string) (d : list (string * string)) : option string :=
  match d with
  | [] => None
  | (k', v) :: r => if (k' =? k)%string then Some v else lookup k r
  end.

(** [THRESHOLD = 1]; Python compares a float with the int [1] exactly,
    and [1] is a binary64 value. *)
Definition THRESHOLD : float := 1%float.

(** [STREETS[0]]. *)
Definition STREETS_0 : string := hd "" STREETS.

(** ** Row and cell classes (lines 27-44) *)

Definition generate_row_class (clicked : bool) : string :=
  if clicked then "selected" else "notselected".

Definition after_cell_class (before after : float) : string :=
  if (THRESHOLD <? after - before)%float then "worse"
  else if (after - before <? - THRESHOLD)%float then "better"
  else "same".

(** ** The click store (lines 62-70) *)

(** [dict(n_clicks=..., clicked=...)] keeps its keyword order. *)
Definition INITIAL_STATE : json :=
  JObj (OrderedDict
          (map (fun street =>
                  (street,
                   JObj [("n_clicks", JInt (if (street =? "Dundas")%string
                                            then 1 else 0));
                         ("clicked", JBool (street =? "Dundas")%string)]))
               STREETS)).

Definition deserialise_clicks (clicks_json : string) : outcome json :=
  json_loads clicks_json.

Definition serialise_clicks (clicks_dict : json) : string :=
  json_dumps clicks_dict.

(** ** The reducer (lines 172-184) *)

(** The body of the loop, on one [click_obj]: the object after the
    iteration.  The comparison reads [click_obj['n_clicks']] first. *)
Definition click_step (click_obj : json) (n_click_new : Z) : outcome json :=
  stored <- getitem click_obj "n_clicks" ;;
  greater <- int_gt n_click_new stored ;;
  if greater : bool then
    o <- setitem click_obj "clicked" (JBool true) ;;
    setitem o "n_clicks" (JInt n_click_new)
  else
    setitem click_obj "clicked" (JBool false).

(** [for click_obj, n_click_new in zip(clicks.values(), rows)]: the
    objects are the dict's own, so each is updated in place; [zip] stops
    at the shorter sequence and the remaining objects are not touched. *)
Fixpoint click_loop (clicks : list (string * json)) (rows : list Z)
  : outcome (list (string * json)) :=
  match clicks, rows with
  | (street, click_obj) :: clicks', n_click_new :: rows' =>
      click_obj' <- click_step click_obj n_click_new ;;
      rest <- click_loop clicks' rows' ;;
      Ok ((street, click_obj') :: rest)
  | _, _ => Ok clicks
  end.

(** [button_click]: [rows] is all arguments but the last, the six
    [n_clicks] inputs; [old_clicks] is the last, the stored JSON text. *)
Definition button_click (rows : list Z) (old_clicks : string) : outcome string :=
  clicks <- deserialise_clicks old_clicks ;;
  d <- items clicks ;;
  d' <- click_loop d rows ;;
  Ok (serialise_clicks (JObj d')).

(** The store after a sequence of click reports: the text one call
    returns is the state the next call reads. *)
Fixpoint run_reports (reports : list (list Z)) (state : string)
  : outcome string :=
  match reports with
  | [] => Ok state
  | rows :: later => s <- button_click rows state ;; run_reports later s
  end.

(** ** The selected street (lines 186-191) *)

(** The list comprehension over [state_data_dict.items()]. *)
Fixpoint clicked_streets (d : list (string * json)) : outcome (list string) :=
  match d with
  | [] => Ok []
  | (street, click_obj) :: d' =>
      c <- getitem click_obj "clicked" ;;
      rest <- clicked_streets d' ;;
      Ok (if truth c then street :: rest else rest)
  end.

Definition update_selected_street (state_data : string) : outcome (list string) :=
  state_data_dict <- deserialise_clicks state_data ;;
  d <- items state_data_dict ;;
  clicked <- clicked_streets d ;;
  Ok (match clicked with [] => [STREETS_0] | _ :: _ => clicked end).

(** ** Row classes (lines 153-170) *)

(** What the [children] property of the selected-street element can
    hold: the text the layout starts with, or the list a callback
    returned. *)
Inductive children : Type :=
| Text (s : string)
| Items (l : list string).

(** [street[0]]. *)
Definition first_of (street : children) : outcome string :=
  match street with
  | Text (String c _) => Ok (String c "")
  | Items (x :: _) => Ok x
  | _ => Raise IndexError
  end.

(** [update_clicked_row], the closure [create_row_click_function]
    returns for [streetname].  [street] is true exactly when it is not
    empty, that is when [street[0]] exists. *)
Definition create_row_click_function (streetname : string) (street : children)
  : string :=
  match first_of street with
  | Ok first => generate_row_class (streetname =? first)%string
  | _ => generate_row_class false
  end.

(** [[create_row_click_function(key) for key in INITIAL_STATE.keys()]],
    each registered with the output [(key, 'className')]. *)
Definition row_callbacks : outcome (list (string * (children -> string))) :=
  d <- items INITIAL_STATE ;;
  Ok (map (fun kv => (fst kv, create_row_click_function (fst kv))) d).

(** ** The datasets and the chart queries (lines 12-13, 95-116, 193-201) *)

(** A row of [daily_fake.csv] or [baselines_fake.csv]. *)
Record Measurement : Type := mkMeasurement {
  m_street : string;
  m_direction : string;
  m_period : string;
  m_day_type : string;
  m_date : string;
  m_tt : float
}.

Definition DataFrame : Type := list Measurement.

(** [go.Bar(x=..., y=...)] and the figure dict. *)
Record Bar : Type := mkBar { bar_x : list string; bar_y : list float }.

Record Figure : Type := mkFigure {
  layout_title : string;
  xaxis_title : string;
  yaxis_title : string;
  data : list Bar
}.

Section Datasets.

(** The two frames read at start-up. *)
Variables DATA BASELINE : DataFrame.

(** The boolean mask of [filter_graph_data]. *)
Definition graph_mask (street direction day_type period : string)
  (m : Measurement) : bool :=
  (m_street m =? street)%string && (m_period m =? period)%string
  && (m_day_type m =? day_type)%string && (m_direction m =? direction)%string.

Definition filter_graph_data (street direction day_type period : string)
  : DataFrame * DataFrame :=
  let filtered := filter (graph_mask street direction day_type period) DATA in
  let filtered_baseline :=
    filter (graph_mask street direction day_type period) BASELINE in
  (filtered, filtered_baseline).

Definition generate_graph (street direction day_type period : string)
  : outcome Figure :=
  let '(after_data, base_data) :=
    filter_graph_data street direction day_type period in
  let data := [mkBar (map m_date after_data) (map m_tt after_data)] in
  match lookup direction DIRECTIONS with
  | Some title => Ok (mkFigure title "Date" "Travel Time (min)" data)
  | None => Raise KeyError
  end.

(** The callbacks call [generate_graph] with its defaults
    [day_type='Weekday'] and [period='AMPK']. *)
Definition update_eb_graph (street : children) : outcome Figure :=
  first <- first_of street ;;
  generate_graph first "EB" "Weekday" "AMPK".

Definition update_wb_graph (street : children) : outcome Figure :=
  first <- first_of street ;;
  generate_graph first "WB" "Weekday" "AMPK".

End Datasets.

(** ** The table aggregation (lines 72-93)

    The pandas calls are modelled on lists of rows, with the two
    numeric kernels in binary64 as pandas and NumPy compute them. *)

(** The mean of a group, as [groupby(...).mean()] and the default
    [aggfunc] of [pivot_table] take it: the values that are NaN are
    skipped, the others are added in frame order with Kahan's
    compensated sum (a compensation that is NaN is reset), and the sum
    is divided by their number; the mean of a group without a value
    that is not NaN is NaN. *)
Fixpoint group_mean_loop (values : list float) (nobs : Z)
  (sumx compensation : float) : Z * float :=
  match values with
  | [] => (nobs, sumx)
  | val :: values' =>
      if (val =? val)%float then
        let y := (val - compensation)%float in
        let t := (sumx + y)%float in
        let c := (t - sumx - y)%float in
        group_mean_loop values' (nobs + 1) t (if (c =? c)%float then c else 0%float)
      else group_mean_loop values' nobs sumx compensation
  end.

Definition mean (g : list float) : float :=
  let '(nobs, sumx) := group_mean_loop g 0 0%float 0%float in
  if (nobs =? 0)%Z then PrimFloat.nan
  else (sumx / PrimFloat.of_uint63 (Uint63.of_Z nobs))%float.

(** [rint]: the nearest integer, ties to even, with the sign of the
    argument; a float of magnitude [2^52] or more is an integer. *)
Definition rint (y : float) : float :=
  (if PrimFloat.abs y <? 0x1p52 then
     let r := (PrimFloat.abs y + 0x1p52) - 0x1p52 in
     if PrimFloat.get_sign y then - r else r
   else y)%float.

(** [round(1)] on a float: NumPy multiplies by ten, takes [rint] and
    divides by ten. *)
Definition round1 (x : float) : float := (rint (x * 10) / 10)%float.

(** Sorted distinct keys, as [groupby] and [pivot_table] order them. *)
Fixpoint insert_sorted (s : string) (l : list string) : list string :=
  match l with
  | [] => [s]
  | x :: r => if (s <=? x)%string then s :: l else x :: insert_sorted s r
  end.

Definition sorted_unique (l : list string) : list string :=
  fold_right insert_sorted [] (nodup string_dec l).

(** The three columns the aggregation reads. *)
Record Obs : Type := mkObs {
  o_street : string;
  o_direction : string;
  o_tt : float
}.

Definition observations (df : DataFrame) : list Obs :=
  map (fun m => mkObs (m_street m) (m_direction m) (m_tt m)) df.

(** A pivoted frame: one column per direction, and per row the street
    label ([None] is NaN) and one cell per column ([None] is NaN). *)
Record PivotRow : Type := mkPivotRow {
  pr_street : option string;
  pr_cells : list (option float)
}.

Record Pivoted : Type := mkPivoted {
  pv_columns : list string;
  pv_rows : list PivotRow
}.

Section Table.

Variables DATA BASELINE : DataFrame.

(** The travel times of one (street, direction) group, in frame order. *)
Definition group_tt (street direction : string) (df : list Obs) : list float :=
  map o_tt
      (filter (fun o => (o_street o =? street)%string
                        && (o_direction o =? direction)%string) df).

(** [df.groupby(by=['street', 'direction'], as_index=False).mean()]:
    one row per group that occurs, keys sorted. *)
Definition groupby_mean (df : list Obs) : list Obs :=
  flat_map
    (fun s =>
       map (fun d => mkObs s d (mean (group_tt s d df)))
           (sorted_unique
              (map o_direction
                   (filter (fun o => (o_street o =? s)%string) df))))
    (sorted_unique (map o_street df)).

(** [dropna(how='all')] on the aggregated frame, whose one value column
    is [tt]: a group whose mean is NaN is dropped. *)
Definition dropna (agged : list Obs) : list Obs :=
  filter (fun o => negb (PrimFloat.is_nan (o_tt o))) agged.

(** A cell after [unstack]: the value of the group, NaN without one. *)
Definition pivot_cell (street direction : string) (agged : list Obs)
  : option float :=
  match group_tt street direction agged with
  | [] => None
  | x :: _ => Some x
  end.

(** [df.pivot_table(index='street', columns='direction', values='tt')]
    followed by [reset_index()]: the frame is grouped by street and
    direction and averaged (the default [aggfunc] is the mean), the
    groups whose mean is NaN are dropped (the default [dropna=True]),
    and the directions that are left are unstacked into columns.  Every
    column then holds a value, so the final removal of empty columns
    removes none. *)
Definition pivot_table (df : list Obs) : Pivoted :=
  let agged := dropna (groupby_mean df) in
  let cols := sorted_unique (map o_direction agged) in
  mkPivoted cols
    (map (fun s => mkPivotRow (Some s)
                     (map (fun d => pivot_cell s d agged) cols))
         (sorted_unique (map o_street agged))).

(** [astype("category")] then [cat.set_categories(STREETS)]: a label
    outside the new categories becomes NaN. *)
Definition set_categories (categories : list string) (label : option string)
  : option string :=
  match label with
  | Some s => if existsb (String.eqb s) categories then Some s else None
  | None => None
  end.

Definition has_label (label : option string) (r : PivotRow) : bool :=
  match pr_street r, label with
  | Some s, Some c => (s =? c)%string
  | None, None => true
  | _, _ => false
  end.

(** [sort_values(['street'])] on the categorical column: rows go by the
    position of their category, rows whose label is NaN go last, and
    rows with the same label keep their order. *)
Definition sort_values (categories : list string) (rows : list PivotRow)
  : list PivotRow :=
  flat_map (fun c => filter (has_label (Some c)) rows) categories
  ++ filter (has_label None) rows.

Definition pivot_order (df : list Obs) : Pivoted :=
  let pivoted := pivot_table df in
  let relabelled :=
    map (fun r => mkPivotRow (set_categories STREETS (pr_street r)) (pr_cells r))
        (pv_rows pivoted) in
  mkPivoted (pv_columns pivoted)
    (map (fun r => mkPivotRow (pr_street r) (map (option_map round1) (pr_cells r)))
         (sort_values STREETS relabelled)).

(** The boolean mask of [filter_table_data]. *)
Definition table_mask (period day_type : string) (m : Measurement) : bool :=
  (m_period m =? period)%string && (m_day_type m =? day_type)%string.

Definition filter_table_data (period day_type : string) : Pivoted * Pivoted :=
  let filtered :=
    groupby_mean (observations (filter (table_mask period day_type) DATA)) in
  let pivoted := pivot_order filtered in
  let filtered_baseline := filter (table_mask period day_type) BASELINE in
  let pivoted_baseline := pivot_order (observations filtered_baseline) in
  (pivoted, pivoted_baseline).

End Table.

(** ** Selection states

    The shape the click store holds: per street, an [n_clicks] counter
    and a [clicked] flag.  [state_json] is the decoded value of that
    shape. *)

Record click_obj : Type := mkClick { n_clicks : Z; clicked : bool }.

Definition sel_state : Type := list (string * click_obj).

Definition click_json (o : click_obj) : json :=
  JObj [("n_clicks", JInt (n_clicks o)); ("clicked", JBool (clicked o))].

Definition state_json (st : sel_state) : json :=
  JObj (map (fun kv => (fst kv, click_json (snd kv))) st).

(** [INITIAL_STATE] as a selection state. *)
Definition initial_state : sel_state :=
  map (fun street => (street, mkClick (if (street =? "Dundas")%string then 1 else 0)
                                      (street =? "Dundas")%string)) STREETS.

(** ** The table view (lines 34-36, 46-54, 119-128) *)

(** What a table cell shows: a text, a number of a frame (NaN as
    [None]), or the street label of a frame row (NaN as [None]). *)
Inductive td_child : Type :=
| ChildText (s : string)
| ChildNumber (x : option float)
| ChildStreet (s : option string).

(** [html.Td], [html.Tr] and [html.Table] with the properties the code
    sets; a property that is not set is [None]. *)
Record Td : Type := mkTd {
  td_child_of : td_child;
  td_className : option string;
  td_colSpan : option nat
}.

Record Tr : Type := mkTr {
  tr_cells : list Td;
  tr_id : option (option string);
  tr_className : option string;
  tr_n_clicks : option json
}.

Record Table : Type := mkTable {
  table_rows : list Tr;
  table_id : string
}.

(** The float a cell holds. *)
Definition to_float (x : option float) : float :=
  match x with
  | Some f => f
  | None => PrimFloat.nan
  end.

Definition generate_direction_cells (before after : option float) : list Td :=
  [mkTd (ChildNumber after)
        (Some (after_cell_class (to_float before) (to_float after))) None;
   mkTd (ChildNumber before) (Some "baseline") None].

(** [row.name] on a tuple of [itertuples()]: the cell under the column
    called [name]; AttributeError without such a column. *)
Fixpoint row_attr (name : string) (columns : list string)
  (cells : list (option float)) : outcome (option float) :=
  match columns, cells with
  | c :: columns', x :: cells' =>
      if (c =? name)%string then Ok x else row_attr name columns' cells'
  | _, _ => Raise AttributeError
  end.

(** [generate_row]: the arguments of [html.Tr] are evaluated from left
    to right, the children first.  Each frame row comes with the
    columns of its frame. *)
Definition generate_row (df_columns : list string) (df_row : PivotRow)
  (baseline_columns : list string) (baseline_row : PivotRow) (row_state : json)
  : outcome Tr :=
  baseline_EB <- row_attr "EB" baseline_columns (pr_cells baseline_row) ;;
  df_EB <- row_attr "EB" df_columns (pr_cells df_row) ;;
  baseline_WB <- row_attr "WB" baseline_columns (pr_cells baseline_row) ;;
  df_WB <- row_attr "WB" df_columns (pr_cells df_row) ;;
  clicked <- getitem row_state "clicked" ;;
  n_clicks <- getitem row_state "n_clicks" ;;
  Ok (mkTr ((mkTd (ChildStreet (pr_street df_row)) (Some "segname") None
             :: generate_direction_cells baseline_EB df_EB)
            ++ generate_direction_cells baseline_WB df_WB)%list
           (Some (pr_street df_row))
           (Some (generate_row_class (truth clicked)))
           (Some n_clicks)).

(** The list comprehension of [generate_table] over
    [zip(filtered_data.itertuples(), baseline.itertuples(),
    state_data_dict.values())]: it stops with the shortest of the three. *)
Fixpoint generate_rows (df_columns : list string) (df_rows : list PivotRow)
  (baseline_columns : list string) (baseline_rows : list PivotRow)
  (states : list (string * json)) : outcome (list Tr) :=
  match df_rows, baseline_rows, states with
  | new_row :: df_rows', baseline_row :: baseline_rows', (_, row_state) :: states' =>
      row <- generate_row df_columns new_row baseline_columns baseline_row
                          row_state ;;
      rest <- generate_rows df_columns df_rows' baseline_columns baseline_rows'
                            states' ;;
      Ok (row :: rest)
  | _, _, _ => Ok []
  end.

(** The two header rows. *)
Definition table_header : list Tr :=
  [mkTr [mkTd (ChildText "") None None;
         mkTd (ChildText "Eastbound") None (Some 2);
         mkTd (ChildText "Westbound") None (Some 2)] None None None;
   mkTr [mkTd (ChildText "") None None;
         mkTd (ChildText "After") None None;
         mkTd (ChildText "Baseline") None None;
         mkTd (ChildText "After") None None;
         mkTd (ChildText "Baseline") None None] None None None].

Section TableView.

Variables DATA BASELINE : DataFrame.
Definition generate_table (state_data_dict : json) (period day_type : string)
  : outcome Table :=
  let '(filtered_data, baseline) :=
    filter_table_data DATA BASELINE period day_type in
  states <- items state_data_dict ;;
  rows <- generate_rows (pv_columns filtered_data) (pv_rows filtered_data)
                        (pv_columns baseline) (pv_rows baseline) states ;;
  Ok (mkTable (table_header ++ rows)%list "data_table").

End TableView.

(** ** Vocabulary of the statements and of their proofs *)

(** What may follow a value in the output of [json_dumps]. *)
Definition value_end (rest : string) : bool :=
  match rest with
  | EmptyString => true
  | String c _ => (c =? ",")%char || (c =? "}")%char || (c =? "]")%char
  end.

(** Every dict in the value has distinct keys. *)
Fixpoint wf (v : json) : Prop :=
  match v with
  | JArr l => (fix all (l : list json) : Prop :=
                 match l with [] => True | x :: r => wf x /\ all r end) l
  | JObj d => NoDup (map fst d) /\
              (fix all (d : list (string * json)) : Prop :=
                 match d with [] => True | kv :: r => wf (snd kv) /\ all r end) d
  | _ => True
  end.

(** Induction over values, with the induction hypothesis for every
    element of a list and every value of a dict. *)
Section JsonInduction.

Variable P : json -> Prop.
Hypothesis Hnull : P JNull.
Hypothesis Hbool : forall b, P (JBool b).
Hypothesis Hint : forall z, P (JInt z).
Hypothesis Hstr : forall s, P (JStr s).
Hypothesis Harr : forall l, Forall P l -> P (JArr l).
Hypothesis Hobj : forall d, Forall (fun kv => P (snd kv)) d -> P (JObj d).

Fixpoint json_nested_ind (v : json) : P v :=
  match v with
  | JNull => Hnull
  | JBool b => Hbool b
  | JInt z => Hint z
  | JStr s => Hstr s
  | JArr l =>
      Harr l ((fix go (l : list json) : Forall P l :=
                 match l with
                 | [] => Forall_nil P
                 | x :: r => Forall_cons x (json_nested_ind x) (go r)
                 end) l)
  | JObj d =>
      Hobj d ((fix go (d : list (string * json))
                 : Forall (fun kv => P (snd kv)) d :=
                 match d with
                 | [] => Forall_nil _
                 | kv :: r => Forall_cons kv (json_nested_ind (snd kv)) (go r)
                 end) d)
  end.

End JsonInduction.

(** The characters a dumped value can start with. *)
Definition value_start (c : ascii) : bool :=
  (c =? dq)%char || (c =? "{")%char || (c =? "[")%char || (c =? "n")%char
  || (c =? "t")%char || (c =? "f")%char || (c =? "-")%char || is_digit c.

(** What the scanner owes on one value. *)
Definition scans_back (v : json) : Prop :=
  forall fuel rest,
    String.length (json_dumps v) < fuel -> value_end rest = true ->
    scan_once fuel (json_dumps v ++ rest) = Ok (v, rest).

(** The text between the brackets of a dumped list, and between the
    braces of a dumped dict. *)
Definition elements_text (l : list json) : string :=
  String.concat ", " (map json_dumps l).

Definition member_text (kv : string * json) : string :=
  encode_basestring_ascii (fst kv) ++ ": " ++ json_dumps (snd kv).

Definition members_text (d : list (string * json)) : string :=
  String.concat ", " (map member_text d).

(** A member, with the opening quote of its key taken off. *)
Definition member_tail (kv : string * json) (rest : string) : string :=
  encode_chars (fst kv)
  ++ String dq (String ":" (String " " (json_dumps (snd kv) ++ rest))).

(** The reducer as the specification words it, on one entity and on a
    whole state. *)
Definition next_click (o : click_obj) (n : Z) : click_obj :=
  if (n_clicks o <? n)%Z then mkClick n true else mkClick (n_clicks o) false.

Fixpoint next_state (st : sel_state) (rows : list Z) : sel_state :=
  match st, rows with
  | (street, o) :: st', n :: rows' => (street, next_click o n) :: next_state st' rows'
  | _, _ => st
  end.

(** An entry of a state whose street is flagged as clicked. *)
Definition flagged (kv : string * click_obj) : bool := clicked (snd kv).

(** Two flagged streets. *)
Definition two_flagged : sel_state :=
  [("Dundas", mkClick 2 true); ("Queen", mkClick 1 true);
   ("Adelaide", mkClick 0 false); ("Richmond", mkClick 0 false);
   ("Wellington", mkClick 0 false); ("Front", mkClick 0 false)].

(** The four-way key of a measurement. *)
Definition has_key (street direction day_type period : string)
  (m : Measurement) : Prop :=
  m_street m = street /\ m_direction m = direction /\
  m_period m = period /\ m_day_type m = day_type.

(** Ascending dates, as Python orders the date strings. *)
Definition date_le (a b : Measurement) : Prop :=
  (m_date a <=? m_date b)%string = true.

(** Two rows of one key, the later date first. *)
Definition later_first : DataFrame :=
  [mkMeasurement "Front" "EB" "AMPK" "Weekday" "2017-10-02" 12;
   mkMeasurement "Front" "EB" "AMPK" "Weekday" "2017-10-01" 11].

(** One row, of another street than the one asked for. *)
Definition queen_only : DataFrame :=
  [mkMeasurement "Queen" "EB" "AMPK" "Weekday" "2017-10-01" 5].

(** The strict order of binary64, as Python evaluates [x > y] and
    [x < y] on floats. *)
Definition float_gt (x y : float) : Prop := (y <? x)%float = true.
Definition float_lt (x y : float) : Prop := (x <? y)%float = true.

(** Membership in a list of strings, as a boolean. *)
Definition mem (a : string) (l : list string) : bool := existsb (String.eqb a) l.

(** The current frame is averaged twice: by [groupby(...).mean()], and
    by [pivot_table] over the one row that is left of each group. *)
Definition twice (g : list float) : float := mean [mean g].

(** A group is kept when it has a row and [agg] of its travel times is
    not NaN. *)
Definition kept (agg : list float -> float) (street direction : string)
  (df : list Obs) : bool :=
  match group_tt street direction df with
  | [] => false
  | g => negb (PrimFloat.is_nan (agg g))
  end.

(** A cell of the table: [agg] of the group's travel times rounded to
    one decimal, NaN for a group that is not kept. *)
Definition table_cell (agg : list float -> float) (street direction : string)
  (df : list Obs) : option float :=
  if kept agg street direction df
  then Some (round1 (agg (group_tt street direction df)))
  else None.

(** Whether a direction, or a street, has a group that is kept. *)
Definition has_direction (agg : list float -> float) (direction : string)
  (df : list Obs) : bool :=
  existsb (fun o => kept agg (o_street o) direction df) df.

Definition has_street (agg : list float -> float) (street : string)
  (df : list Obs) : bool :=
  existsb (fun o => kept agg street (o_direction o) df) df.

(** What [pivot_order] makes of a frame, with [agg] the mean taken of a
    group: one column per direction with a group that is kept; first
    the streets of [STREETS] with a group that is kept, in the order of
    [STREETS], each under its own label; then one row for every other
    street with a group that is kept, its label lost. *)
Definition aggregated (agg : list float -> float) (df : list Obs) (p : Pivoted)
  : Prop :=
  NoDup (pv_columns p) /\
  (forall d, In d (pv_columns p) <-> has_direction agg d df = true) /\
  exists others : list string,
    NoDup others /\
    (forall s, In s others <-> has_street agg s df = true /\ ~ In s STREETS) /\
    pv_rows p
    = (map (fun c => mkPivotRow (Some c)
                       (map (fun d => table_cell agg c d df) (pv_columns p)))
           (filter (fun c => has_street agg c df) STREETS)
       ++ map (fun s => mkPivotRow None
                          (map (fun d => table_cell agg s d df) (pv_columns p)))
              others)%list.

(** The rows of a frame the table is made of: those of the period and
    day type, with the three columns the aggregation reads. *)
Definition matching (period day_type : string) (df : DataFrame) : list Obs :=
  observations (filter (table_mask period day_type) df).

(** The directions that occur with a street. *)
Definition directions_of (s : string) (df : list Obs) : list string :=
  sorted_unique (map o_direction (filter (fun o => (o_street o =? s)%string) df)).

(** A frame with a street outside [STREETS]. *)
Definition with_king : DataFrame :=
  [mkMeasurement "Dundas" "EB" "AMPK" "Weekday" "2017-10-01" 10;
   mkMeasurement "King" "EB" "AMPK" "Weekday" "2017-10-01" 20].

(** ** Vocabulary of the further properties *)

(** A state entry with its flag cleared. *)
Definition unflag (kv : string * click_obj) : string * click_obj :=
  (fst kv, mkClick (n_clicks (snd kv)) false).

(** The largest of [start] and the counters the reports give for the
    entry at position [i]. *)
Definition reported_max (i : nat) (reports : list (list Z)) (start : Z) : Z :=
  fold_left (fun acc rows => match nth_error rows i with
                             | Some n => Z.max acc n
                             | None => acc
                             end) reports start.

(** Whether a stored object counts as clicked: the truth value of its
    ['clicked'] entry. *)
Definition flag_true (click_obj : json) : bool :=
  match getitem click_obj "clicked" with
  | Ok c => truth c
  | _ => false
  end.

(** The data row of the view for a current row, a baseline row and a
    state entry, given the four cells it reads. *)
Definition view_row (df_row : PivotRow) (o : click_obj)
  (baseline_EB df_EB baseline_WB df_WB : option float) : Tr :=
  mkTr ((mkTd (ChildStreet (pr_street df_row)) (Some "segname") None
         :: generate_direction_cells baseline_EB df_EB)
        ++ generate_direction_cells baseline_WB df_WB)%list
       (Some (pr_street df_row))
       (Some (generate_row_class (clicked o)))
       (Some (JInt (n_clicks o))).

(** A week of two streets, and a frame with the six streets in both
    directions. *)
Definition two_streets : DataFrame :=
  [mkMeasurement "Queen" "EB" "AMPK" "Weekday" "2017-10-02" 12;
   mkMeasurement "Queen" "WB" "AMPK" "Weekday" "2017-10-02" 14;
   mkMeasurement "Front" "EB" "AMPK" "Weekday" "2017-10-02" 9;
   mkMeasurement "Front" "WB" "AMPK" "Weekday" "2017-10-02" 8].

Definition six_streets : DataFrame :=
  flat_map (fun street =>
              [mkMeasurement street "EB" "AMPK" "Weekday" "2017-10-02" 10;
               mkMeasurement street "WB" "AMPK" "Weekday" "2017-10-02" 11])
           ("King" :: STREETS).

(** A character from space to tilde. *)
Definition printable (c : ascii) : bool :=
  (32 <=? N_of_ascii c)%N && (N_of_ascii c <=? 126)%N.

Fixpoint all_printable (s : string) : bool :=
  match s with
  | EmptyString => true
  | String c r => printable c && all_printable r
  end.

(** The rows of a frame hold one cell per column. *)
Definition shaped (columns : list string) (rows : list PivotRow) : Prop :=
  Forall (fun r => exists f, pr_cells r = map f columns) rows.

(** ** Facts about strings *)

Lemma append_assoc (a b c : string) : (a ++ b) ++ c = a ++ (b ++ c).
Proof. induction a as [| x a IH]; simpl; [reflexivity | now rewrite IH]. Qed.

Lemma append_nil_r (a : string) : a ++ "" = a.
Proof. induction a as [| x a IH]; simpl; [reflexivity | now rewrite IH]. Qed.

Lemma length_append (a b : string) :
  String.length (a ++ b) = String.length a + String.length b.
Proof. induction a as [| x a IH]; simpl; [reflexivity | now rewrite IH]. Qed.

(** ** Strings survive encoding and scanning *)

Lemma scanstring_encode_char (c : ascii) (r : string) :
  scanstring (encode_char c ++ r) = prepend c (scanstring r).
Proof.
  destruct c as [[] [] [] [] [] [] [] []]; reflexivity.
Qed.

Lemma scanstring_encode_chars (s rest : string) :
  scanstring (encode_chars s ++ String dq rest) = Ok (s, rest).
Proof.
  induction s as [| c s IH]; simpl.
  - reflexivity.
  - rewrite append_assoc, scanstring_encode_char, IH. reflexivity.
Qed.

(** ** Integers survive printing and scanning *)

Lemma value_end_not_number (rest : string) :
  value_end rest = true ->
  has_frac rest = false /\ has_exp rest = false /\ span_digits rest = ("", rest).
Proof.
  destruct rest as [| c r]; [easy |]. cbn [value_end].
  intros H. 
  assert (Hc : c = ","%char \/ c = "}"%char \/ c = "]"%char).
  { apply orb_prop in H as [H | H]; [apply orb_prop in H as [H | H] |];
      apply Ascii.eqb_eq in H; auto. }
  destruct Hc as [-> | [-> | ->]]; repeat split; try reflexivity;
    destruct r; reflexivity.
Qed.

Lemma span_digits_uint (d : uint) (rest : string) :
  span_digits rest = ("", rest) ->
  span_digits (NilEmpty.string_of_uint d ++ rest)
  = (NilEmpty.string_of_uint d, rest).
Proof.
  intros Hrest. induction d; cbn [NilEmpty.string_of_uint append];
    [exact Hrest | ..]; cbn [span_digits]; rewrite IHd; reflexivity.
Qed.

Lemma nzhead_not_D0 (d d' : uint) : nzhead d <> D0 d'.
Proof. induction d; simpl; try discriminate; assumption. Qed.

Lemma to_uint_normal (p : positive) : Pos.to_uint p = nzhead (Pos.to_uint p).
Proof.
  pose proof (DecimalPos.Unsigned.to_of (Pos.to_uint p)) as H.
  rewrite DecimalPos.Unsigned.of_to in H. cbn [N.to_uint] in H.
  unfold unorm in H.
  destruct (nzhead (Pos.to_uint p)) eqn:E; try exact H.
  exfalso. exact (DecimalPos.Unsigned.to_uint_nonzero p H).
Qed.

(** The literal of a positive number is matched whole. *)
Lemma match_integer_pos (p : positive) (rest : string) :
  span_digits rest = ("", rest) ->
  match_integer (NilZero.string_of_uint (Pos.to_uint p) ++ rest)
  = Some (NilZero.string_of_uint (Pos.to_uint p), rest) /\
  match_integer (String "-" (NilZero.string_of_uint (Pos.to_uint p) ++ rest))
  = Some (String "-" (NilZero.string_of_uint (Pos.to_uint p)), rest).
Proof.
  intros Hrest.
  pose proof (to_uint_normal p) as Hn.
  pose proof (DecimalPos.Unsigned.to_uint_nonnil p) as Hnil.
  destruct (Pos.to_uint p) as [| d | d | d | d | d | d | d | d | d | d] eqn:E;
    try (exfalso; apply Hnil; reflexivity);
    try (exfalso; exact (nzhead_not_D0 _ _ (eq_sym Hn)));
    unfold match_integer;
    cbn [NilZero.string_of_uint NilEmpty.string_of_uint append Ascii.eqb Bool.eqb is_digit];
    cbn; rewrite (span_digits_uint d rest Hrest); split; reflexivity.
Qed.

Lemma py_int_repr (z : Z) : py_int (repr_int z) = Some z.
Proof.
  unfold py_int, repr_int.
  rewrite NilZero.isi.
  - cbn. now rewrite DecimalZ.of_to.
  - destruct z; cbn; try discriminate.
    intros [= H]. exact (DecimalPos.Unsigned.to_uint_nonnil _ H).
  - destruct z; cbn; try discriminate.
    intros [= H]. exact (DecimalPos.Unsigned.to_uint_nonnil _ H).
Qed.

Lemma scan_number_repr (z : Z) (rest : string) :
  value_end rest = true ->
  scan_number (repr_int z ++ rest) = Ok (JInt z, rest).
Proof.
  intros Hend. apply value_end_not_number in Hend as (Hf & He & Hd).
  pose proof (py_int_repr z) as Hz.
  unfold scan_number.
  destruct z as [| p | p].
  - cbn. rewrite Hf, He. reflexivity.
  - destruct (match_integer_pos p rest Hd) as [H _].
    change (repr_int (Z.pos p)) with (NilZero.string_of_uint (Pos.to_uint p)) in *.
    rewrite H, Hf, He, Hz. reflexivity.
  - destruct (match_integer_pos p rest Hd) as [_ H].
    change (repr_int (Z.neg p)) with (String "-" (NilZero.string_of_uint (Pos.to_uint p))) in *.
    cbn [append]. rewrite H, Hf, He, Hz. reflexivity.
Qed.

(** ** Insertion-ordered dicts *)

Lemma od_set_fresh (k : string) (v : json) (d : list (string * json)) :
  ~ In k (map fst d) -> od_set k v d = (d ++ [(k, v)])%list.
Proof.
  induction d as [| [k' v'] d IH]; simpl; intros Hk; [reflexivity |].
  destruct (String.eqb_spec k' k) as [-> | Hne].
  - exfalso; auto.
  - rewrite IH; auto.
Qed.

Lemma OrderedDict_app (l acc : list (string * json)) :
  NoDup (map fst (acc ++ l)%list) ->
  fold_left (fun d kv => od_set (fst kv) (snd kv) d) l acc = (acc ++ l)%list.
Proof.
  revert acc. induction l as [| [k v] l IH]; intros acc Hnd; simpl.
  - now rewrite List.app_nil_r.
  - rewrite od_set_fresh.
    + rewrite IH; rewrite <- List.app_assoc; [reflexivity | exact Hnd].
    + rewrite map_app in Hnd. apply NoDup_remove_2 in Hnd.
      intros Hin. apply Hnd. apply in_or_app. now left.
Qed.

Lemma OrderedDict_nodup (l : list (string * json)) :
  NoDup (map fst l) -> OrderedDict l = l.
Proof. intros H. unfold OrderedDict. now rewrite OrderedDict_app. Qed.

(** ** Well-formed values and induction over them *)

Lemma wf_arr (l : list json) : wf (JArr l) <-> Forall wf l.
Proof.
  induction l as [| x l IH]; cbn [wf].
  - split; auto.
  - split.
    + intros [Hx Hl]. constructor; [exact Hx | apply IH; exact Hl].
    + intros H. inversion H; subst. split; [assumption | now apply IH].
Qed.

Lemma wf_obj (d : list (string * json)) :
  wf (JObj d) <-> NoDup (map fst d) /\ Forall (fun kv => wf (snd kv)) d.
Proof.
  cbn [wf]. apply and_iff_compat_l.
  induction d as [| kv d IH].
  - split; auto.
  - split.
    + intros [Hx Hl]. constructor; [exact Hx | apply IH; exact Hl].
    + intros H. inversion H; subst. split; [assumption | now apply IH].
Qed.

(** ** The first character of a dumped value *)

Lemma repr_int_head (z : Z) :
  exists c r, repr_int z = String c r /\ ((c =? "-")%char || is_digit c) = true.
Proof.
  destruct z as [| p | p]; unfold repr_int; cbn [Z.to_int NilZero.string_of_int].
  - eexists _, _; split; reflexivity.
  - pose proof (DecimalPos.Unsigned.to_uint_nonnil p) as Hnil.
    destruct (Pos.to_uint p); try (exfalso; now apply Hnil);
      eexists _, _; split; reflexivity.
  - eexists _, _; split; reflexivity.
Qed.

Lemma json_dumps_head (v : json) :
  exists c r, json_dumps v = String c r /\ value_start c = true.
Proof.
  destruct v as [| [] | z | s | l | d]; cbn [json_dumps];
    try (eexists _, _; split; reflexivity).
  destruct (repr_int_head z) as (c & r & -> & Hc).
  exists c, r. split; [reflexivity |]. unfold value_start.
  apply orb_prop in Hc as [-> | ->]; rewrite ?orb_true_r; reflexivity.
Qed.

Lemma value_start_not_ws (c : ascii) : value_start c = true -> is_ws c = false.
Proof. destruct c as [[] [] [] [] [] [] [] []]; intros H; try discriminate H; reflexivity. Qed.

Lemma skip_ws_dumps (v : json) (rest : string) :
  skip_ws (json_dumps v ++ rest) = json_dumps v ++ rest.
Proof.
  destruct (json_dumps_head v) as (c & r & -> & Hc).
  cbn. now rewrite (value_start_not_ws c Hc).
Qed.

Lemma skip_ws_space_dumps (v : json) (rest : string) :
  skip_ws (String " " (json_dumps v ++ rest)) = json_dumps v ++ rest.
Proof. cbn [skip_ws is_ws]. cbn. apply skip_ws_dumps. Qed.

Lemma scan_once_number (fuel : nat) (c : ascii) (r : string) :
  ((c =? "-")%char || is_digit c) = true ->
  scan_once (S fuel) (String c r) = scan_number (String c r).
Proof.
  destruct c as [[] [] [] [] [] [] [] []]; intros H; try discriminate H; reflexivity.
Qed.

(** ** [json_loads] undoes [json_dumps] *)

Lemma elements_text_cons (x y : json) (l : list json) :
  elements_text (x :: y :: l)
  = json_dumps x ++ String "," (String " " (elements_text (y :: l))).
Proof. reflexivity. Qed.

Lemma elements_text_head (l : list json) :
  l <> [] ->
  exists c r, elements_text l = String c r /\ value_start c = true.
Proof.
  destruct l as [| x l]; [congruence | intros _].
  destruct (json_dumps_head x) as (c & r & E & Hc).
  unfold elements_text; cbn [map String.concat].
  destruct (map json_dumps l); rewrite E; cbn [append]; eauto.
Qed.

Lemma skip_ws_elements (l : list json) (rest : string) :
  l <> [] -> skip_ws (elements_text l ++ rest) = elements_text l ++ rest.
Proof.
  intros Hl. destruct (elements_text_head l Hl) as (c & r & -> & Hc).
  cbn. now rewrite (value_start_not_ws c Hc).
Qed.

#[local] Arguments elements_text : simpl never.

Lemma array_elements_dumps (l : list json) :
  l <> [] -> Forall scans_back l ->
  forall fuel rest,
    String.length (elements_text l) + 2 <= fuel ->
    array_elements fuel (elements_text l ++ String "]" rest) = Ok (l, rest).
Proof.
  induction l as [| x l IH]; [congruence |].
  intros _ Hall fuel rest Hfuel.
  inversion Hall as [| ? ? Hx Hl]; subst.
  destruct fuel as [| fuel]; [lia |].
  destruct l as [| y l].
  - unfold elements_text in *. cbn [map String.concat] in *.
    cbn [array_elements]. rewrite Hx; [| lia | reflexivity].
    reflexivity.
  - rewrite elements_text_cons in *.
    rewrite length_append in Hfuel. cbn [String.length] in Hfuel.
    rewrite append_assoc. cbn [append array_elements].
    rewrite Hx; [| lia | reflexivity].
    cbn. rewrite skip_ws_elements by congruence.
    rewrite IH; [reflexivity | congruence | exact Hl | lia].
Qed.

Lemma member_text_app (kv : string * json) (rest : string) :
  member_text kv ++ rest = String dq (member_tail kv rest).
Proof.
  unfold member_text, member_tail, encode_basestring_ascii.
  cbn [append]. now rewrite !append_assoc.
Qed.

Lemma members_text_one (kv : string * json) (rest : string) :
  members_text [kv] ++ rest = String dq (member_tail kv rest).
Proof. unfold members_text; cbn [map String.concat]. apply member_text_app. Qed.

Lemma members_text_cons (kv kv' : string * json) (d : list (string * json))
  (rest : string) :
  members_text (kv :: kv' :: d) ++ rest
  = String dq (member_tail kv
                 (String "," (String " " (members_text (kv' :: d) ++ rest)))).
Proof.
  unfold members_text; cbn [map String.concat].
  rewrite append_assoc, member_text_app. reflexivity.
Qed.

Lemma members_text_length (kv : string * json) (d : list (string * json)) :
  String.length (json_dumps (snd kv)) + 5 + String.length (members_text d)
  <= String.length (members_text (kv :: d)) + 2.
Proof.
  unfold members_text; cbn [map String.concat].
  assert (H : String.length (json_dumps (snd kv)) + 3
              <= String.length (member_text kv)).
  { unfold member_text, encode_basestring_ascii. cbn [append String.length].
    rewrite !length_append. cbn [String.length]. lia. }
  destruct d as [| kv' d]; cbn [map].
  - cbn [String.concat String.length]. lia.
  - rewrite !length_append. cbn [String.length].
    change (String.concat ", " (member_text kv' :: map member_text d))
      with (String.concat ", " (map member_text (kv' :: d))). lia.
Qed.

#[local] Arguments members_text : simpl never.
#[local] Arguments member_tail : simpl never.

Lemma object_members_dumps (d : list (string * json)) :
  Forall (fun kv => scans_back (snd kv)) d ->
  forall kv fuel rest,
    scans_back (snd kv) ->
    String.length (members_text (kv :: d)) + 2 <= fuel ->
    forall tail, members_text (kv :: d) ++ String "}" rest = String dq tail ->
    object_members fuel tail = Ok (kv :: d, rest).
Proof.
  induction d as [| kv' d IH]; intros Hall [k v] fuel rest Hv Hfuel tail Htail.
  - rewrite members_text_one in Htail. injection Htail as <-.
    pose proof (members_text_length (k, v) []) as Hlen. cbn [snd] in *.
    destruct fuel as [| fuel]; [lia |].
    cbn [object_members]. unfold member_tail. cbn [fst snd].
    rewrite scanstring_encode_chars. cbn [bind].
    cbn [skip_ws is_ws]. cbn - [scan_once json_dumps].
    rewrite skip_ws_dumps, Hv; [| lia | reflexivity].
    reflexivity.
  - rewrite members_text_cons in Htail. injection Htail as <-.
    pose proof (members_text_length (k, v) (kv' :: d)) as Hlen. cbn [snd] in *.
    inversion Hall as [| ? ? Hv' Hd]; subst.
    destruct fuel as [| fuel]; [lia |].
    cbn [object_members]. unfold member_tail at 1. cbn [fst snd].
    rewrite scanstring_encode_chars. cbn [bind].
    cbn - [scan_once json_dumps object_members].
    rewrite skip_ws_dumps, Hv; [| lia | reflexivity].
    cbn - [scan_once json_dumps object_members].
    destruct (members_text (kv' :: d) ++ String "}" rest) as [| c t] eqn:E.
    + exfalso. destruct d; [rewrite members_text_one in E
                           | rewrite members_text_cons in E]; discriminate.
    + assert (c = dq) as ->.
      { destruct d; [rewrite members_text_one in E
                    | rewrite members_text_cons in E]; now injection E. }
      cbn - [object_members].
      rewrite (IH Hd kv' fuel rest Hv'); [reflexivity | lia | exact E].
Qed.

Lemma scan_once_dumps (v : json) : wf v -> scans_back v.
Proof.
  induction v as [| b | z | s | l IH | d IH] using json_nested_ind;
    intros Hwf fuel rest Hfuel Hend;
    (destruct fuel as [| fuel]; [lia |]).
  - reflexivity.
  - destruct b; reflexivity.
  - cbn [json_dumps] in *.
    destruct (repr_int_head z) as (c & r & E & Hc).
    pose proof (scan_number_repr z rest Hend) as Hn.
    rewrite E in *. cbn [append] in *.
    now rewrite scan_once_number.
  - cbn [json_dumps] in *. unfold encode_basestring_ascii.
    cbn [append scan_once]. cbn - [scanstring].
    rewrite append_assoc. cbn [append].
    now rewrite scanstring_encode_chars.
  - apply wf_arr in Hwf.
    assert (Hall : Forall scans_back l).
    { rewrite Forall_forall in *. intros x Hx. apply IH; auto. }
    cbn [json_dumps] in *. fold (elements_text l) in *.
    cbn [append String.length] in *. rewrite length_append in Hfuel.
    cbn [String.length] in Hfuel.
    rewrite append_assoc. cbn [append].
    destruct l as [| x l].
    + reflexivity.
    + cbn [scan_once]. cbn - [array_elements skip_ws].
      rewrite skip_ws_elements by congruence.
      destruct (elements_text_head (x :: l)) as (c & r & E & Hc); [congruence |].
      assert (Harr : array_elements fuel (elements_text (x :: l) ++ String "]" rest)
                     = Ok (x :: l, rest)).
      { apply array_elements_dumps; [congruence | exact Hall | lia]. }
      rewrite E in *. cbn [append] in *.
      replace (c =? "]")%char with false
        by (destruct c as [[] [] [] [] [] [] [] []]; try discriminate Hc; reflexivity).
      rewrite Harr. reflexivity.
  - apply wf_obj in Hwf as [Hnd Hwf].
    assert (Hall : Forall (fun kv => scans_back (snd kv)) d).
    { rewrite Forall_forall in *. intros x Hx. apply IH; auto. }
    cbn [json_dumps] in *. fold member_text in *. fold (members_text d) in *.
    cbn [append String.length] in *. rewrite length_append in Hfuel.
    cbn [String.length] in Hfuel.
    rewrite append_assoc. cbn [append].
    destruct d as [| kv d].
    + reflexivity.
    + inversion Hall as [| ? ? Hkv Hd]; subst.
      destruct (members_text (kv :: d) ++ String "}" rest) as [| c t] eqn:E.
      * exfalso. destruct d; [rewrite members_text_one in E
                             | rewrite members_text_cons in E]; discriminate.
      * assert (c = dq) as ->.
        { destruct d; [rewrite members_text_one in E
                      | rewrite members_text_cons in E]; now injection E. }
        cbn [scan_once]. cbn - [object_members].
        rewrite (object_members_dumps d Hd kv fuel rest Hkv); [| lia | exact E].
        cbn [bind]. now rewrite OrderedDict_nodup.
Qed.

(** [json.loads(json.dumps(v), object_pairs_hook=OrderedDict) == v]. *)
Lemma json_loads_dumps (v : json) : wf v -> json_loads (json_dumps v) = Ok v.
Proof.
  intros Hwf. unfold json_loads.
  rewrite <- (append_nil_r (json_dumps v)) at 2.
  rewrite skip_ws_dumps, (scan_once_dumps v Hwf); [reflexivity | lia | reflexivity].
Qed.

(** ** The click store on selection states *)

Lemma state_json_keys (st : sel_state) :
  map fst (map (fun kv => (fst kv, click_json (snd kv))) st) = map fst st.
Proof. rewrite map_map. reflexivity. Qed.

Lemma wf_state_json (st : sel_state) : NoDup (map fst st) -> wf (state_json st).
Proof.
  intros Hnd. apply wf_obj. rewrite state_json_keys. split; [exact Hnd |].
  apply Forall_forall. intros kv Hin. apply in_map_iff in Hin as (x & <- & _).
  cbn [snd click_json]. apply wf_obj. split.
  - repeat constructor; cbn; intuition discriminate.
  - repeat constructor.
Qed.

Lemma deserialise_serialise_state (st : sel_state) :
  NoDup (map fst st) ->
  deserialise_clicks (serialise_clicks (state_json st)) = Ok (state_json st).
Proof. intros H. apply json_loads_dumps, wf_state_json, H. Qed.

Lemma click_step_state (o : click_obj) (n : Z) :
  click_step (click_json o) n = Ok (click_json (next_click o n)).
Proof.
  unfold click_step, next_click. cbn.
  destruct (n_clicks o <? n)%Z; reflexivity.
Qed.

Lemma click_loop_state (st : sel_state) (rows : list Z) :
  click_loop (map (fun kv => (fst kv, click_json (snd kv))) st) rows
  = Ok (map (fun kv => (fst kv, click_json (snd kv))) (next_state st rows)).
Proof.
  revert rows. induction st as [| [street o] st IH]; intros rows.
  - destruct rows; reflexivity.
  - destruct rows as [| n rows]; [reflexivity |].
    cbn [map fst snd click_loop next_state].
    rewrite click_step_state, IH. reflexivity.
Qed.

Lemma next_state_keys (st : sel_state) (rows : list Z) :
  map fst (next_state st rows) = map fst st.
Proof.
  revert rows. induction st as [| [street o] st IH]; intros [| n rows];
    cbn [next_state map fst]; try reflexivity. now rewrite IH.
Qed.

Lemma next_state_nth (st : sel_state) (rows : list Z) (i : nat)
  (street : string) (o : click_obj) :
  nth_error st i = Some (street, o) ->
  nth_error (next_state st rows) i
  = Some (street, match nth_error rows i with
                  | Some n => next_click o n
                  | None => o
                  end).
Proof.
  revert rows i. induction st as [| [k x] st IH]; intros rows i H.
  - destruct i; discriminate.
  - destruct rows as [| n rows].
    + cbn [next_state]. rewrite H. now destruct i.
    + destruct i as [| i]; cbn [next_state nth_error] in *.
      * now injection H as -> ->.
      * now apply IH.
Qed.

(** The callback on a stored state: it succeeds, and stores the
    specification's next state. *)
Lemma button_click_state (st : sel_state) (rows : list Z) :
  NoDup (map fst st) ->
  button_click rows (serialise_clicks (state_json st))
  = Ok (serialise_clicks (state_json (next_state st rows))).
Proof.
  intros Hnd. unfold button_click.
  rewrite (deserialise_serialise_state st Hnd). cbn [bind state_json items].
  rewrite click_loop_state. reflexivity.
Qed.

Lemma clicked_streets_state (st : sel_state) :
  clicked_streets (map (fun kv => (fst kv, click_json (snd kv))) st)
  = Ok (map fst (filter flagged st)).
Proof.
  induction st as [| [street o] st IH]; [reflexivity |].
  cbn [map fst snd clicked_streets filter].
  rewrite IH. unfold flagged at 2. cbn. destruct (clicked o); reflexivity.
Qed.

Lemma update_selected_street_state (st : sel_state) :
  NoDup (map fst st) ->
  update_selected_street (serialise_clicks (state_json st))
  = Ok (match map fst (filter flagged st) with
        | [] => ["Dundas"]
        | street :: others => street :: others
        end).
Proof.
  intros Hnd. unfold update_selected_street.
  rewrite (deserialise_serialise_state st Hnd). cbn [bind state_json items].
  rewrite clicked_streets_state. cbn [bind].
  destruct (map fst (filter flagged st)); reflexivity.
Qed.

Lemma INITIAL_STATE_state : INITIAL_STATE = state_json initial_state.
Proof. reflexivity. Qed.

Lemma initial_state_keys : map fst initial_state = STREETS.
Proof. reflexivity. Qed.

Lemma STREETS_NoDup : NoDup STREETS.
Proof. repeat constructor; cbn; intuition discriminate. Qed.

(** ** The reducer *)

(** C1: on every stored state and every click report the reducer
    succeeds and stores a state with the same streets in the same
    order, in which a street whose reported counter is strictly greater
    than its stored one is flagged and holds the reported counter, and
    any other reported street is not flagged and keeps its counter. *)
Theorem button_click_selects (st : sel_state) (rows : list Z) :
  NoDup (map fst st) ->
  exists st' : sel_state,
    button_click rows (serialise_clicks (state_json st))
    = Ok (serialise_clicks (state_json st')) /\
    deserialise_clicks (serialise_clicks (state_json st')) = Ok (state_json st') /\
    map fst st' = map fst st /\
    forall i street o n,
      nth_error st i = Some (street, o) -> nth_error rows i = Some n ->
      exists o',
        nth_error st' i = Some (street, o') /\
        ((n_clicks o < n)%Z -> clicked o' = true /\ n_clicks o' = n) /\
        ((n <= n_clicks o)%Z ->
         clicked o' = false /\ n_clicks o' = n_clicks o).
Proof.
  intros Hnd. exists (next_state st rows).
  split; [now apply button_click_state |].
  split; [apply deserialise_serialise_state; now rewrite next_state_keys |].
  split; [apply next_state_keys |].
  intros i street o n Hst Hrow.
  exists (next_click o n). split.
  - rewrite (next_state_nth st rows i street o Hst), Hrow. reflexivity.
  - unfold next_click. destruct (Z.ltb_spec (n_clicks o) n); cbn; split; intros;
      solve [lia | split; reflexivity].
Qed.

Lemma button_click_selects_witness :
  NoDup (map fst initial_state) /\
  exists st' : sel_state,
    button_click [1; 1; 0; 0; 0; 0]%Z (serialise_clicks (state_json initial_state))
    = Ok (serialise_clicks (state_json st')) /\
    deserialise_clicks (serialise_clicks (state_json st')) = Ok (state_json st') /\
    map fst st' = map fst initial_state /\
    forall i street o n,
      nth_error initial_state i = Some (street, o) ->
      nth_error [1; 1; 0; 0; 0; 0]%Z i = Some n ->
      exists o',
        nth_error st' i = Some (street, o') /\
        ((n_clicks o < n)%Z -> clicked o' = true /\ n_clicks o' = n) /\
        ((n <= n_clicks o)%Z ->
         clicked o' = false /\ n_clicks o' = n_clicks o).
Proof.
  split; [exact STREETS_NoDup |].
  apply (button_click_selects initial_state [1; 1; 0; 0; 0; 0]%Z).
  exact STREETS_NoDup.
Defined.

(** C9: no reduction lowers a stored counter. *)
Theorem button_click_counters_monotone (st : sel_state) (rows : list Z) :
  NoDup (map fst st) ->
  exists st' : sel_state,
    button_click rows (serialise_clicks (state_json st))
    = Ok (serialise_clicks (state_json st')) /\
    map fst st' = map fst st /\
    forall i street o,
      nth_error st i = Some (street, o) ->
      exists o',
        nth_error st' i = Some (street, o') /\ (n_clicks o <= n_clicks o')%Z.
Proof.
  intros Hnd. exists (next_state st rows).
  split; [now apply button_click_state |].
  split; [apply next_state_keys |].
  intros i street o Hst.
  eexists. split; [apply (next_state_nth st rows i street o Hst) |].
  destruct (nth_error rows i) as [n |]; [| lia].
  unfold next_click. destruct (Z.ltb_spec (n_clicks o) n); cbn; lia.
Qed.

Lemma button_click_counters_monotone_witness :
  NoDup (map fst initial_state) /\
  exists st' : sel_state,
    button_click [0; 5; 0; 0; 0; 0]%Z (serialise_clicks (state_json initial_state))
    = Ok (serialise_clicks (state_json st')) /\
    map fst st' = map fst initial_state /\
    forall i street o,
      nth_error initial_state i = Some (street, o) ->
      exists o',
        nth_error st' i = Some (street, o') /\ (n_clicks o <= n_clicks o')%Z.
Proof.
  split; [exact STREETS_NoDup |].
  apply (button_click_counters_monotone initial_state [0; 5; 0; 0; 0; 0]%Z).
  exact STREETS_NoDup.
Defined.

(** C10: deserialising the serialisation of a click store returns the
    store itself, its streets in the same order. *)
Theorem deserialise_serialise_clicks (st : sel_state) :
  NoDup (map fst st) ->
  deserialise_clicks (serialise_clicks (state_json st)) = Ok (state_json st) /\
  (clicks <- deserialise_clicks (serialise_clicks (state_json st)) ;;
   d <- items clicks ;; Ok (map fst d)) = Ok (map fst st).
Proof.
  intros Hnd. rewrite (deserialise_serialise_state st Hnd).
  split; [reflexivity |]. cbn [bind state_json items].
  now rewrite state_json_keys.
Qed.

Lemma deserialise_serialise_clicks_witness :
  NoDup (map fst initial_state) /\
  deserialise_clicks (serialise_clicks (state_json initial_state))
  = Ok (state_json initial_state) /\
  (clicks <- deserialise_clicks (serialise_clicks (state_json initial_state)) ;;
   d <- items clicks ;; Ok (map fst d)) = Ok (map fst initial_state).
Proof.
  split; [exact STREETS_NoDup |].
  apply (deserialise_serialise_clicks initial_state). exact STREETS_NoDup.
Defined.

(** ** The selected street *)

Lemma find_flagged_head (st : sel_state) :
  hd_error (map fst (filter flagged st)) = option_map fst (find flagged st).
Proof.
  induction st as [| kv st IH]; [reflexivity |].
  cbn [filter find]. destruct (flagged kv); [reflexivity | exact IH].
Qed.

(** The callback never returns an empty list. *)
Lemma update_selected_street_nonempty (state_data : string) (street : list string) :
  update_selected_street state_data = Ok street -> street <> [].
Proof.
  unfold update_selected_street.
  destruct (deserialise_clicks state_data) as [v | |]; try discriminate.
  cbn [bind]. destruct (items v) as [d | |]; try discriminate.
  cbn [bind]. destruct (clicked_streets d) as [[| x l] | |]; try discriminate;
    cbn [bind]; intros [= <-]; discriminate.
Qed.

(** C2, as stated, fails: with two flagged streets the callback
    returns both, not a single street. *)
Lemma update_selected_street_not_single :
  ~ (forall st : sel_state,
        NoDup (map fst st) ->
        exists e : string,
          update_selected_street (serialise_clicks (state_json st)) = Ok [e]).
Proof.
  intros H. destruct (H two_flagged) as [e He].
  - exact STREETS_NoDup.
  - vm_compute in He. discriminate He.
Qed.

(** C2, amended: the callback returns every flagged street in the
    order of the state, or the one-element list of the default street
    when none is flagged; the list is never empty, and its first
    element, the one the row and chart callbacks read, is the first
    flagged street, or the default, which heads [STREETS]. *)
Theorem update_selected_street_first (st : sel_state) :
  NoDup (map fst st) ->
  exists street : list string,
    update_selected_street (serialise_clicks (state_json st)) = Ok street /\
    street = match map fst (filter flagged st) with
             | [] => ["Dundas"]
             | first :: others => first :: others
             end /\
    street <> [] /\
    first_of (Items street)
    = Ok (match find flagged st with
          | Some kv => fst kv
          | None => "Dundas"
          end) /\
    hd_error STREETS = Some "Dundas".
Proof.
  intros Hnd. eexists. split; [now apply update_selected_street_state |].
  split; [reflexivity |].
  pose proof (find_flagged_head st) as Hh.
  destruct (map fst (filter flagged st)) as [| first others];
    destruct (find flagged st) as [kv |]; try discriminate Hh;
    cbn in Hh |- *; repeat split; try discriminate; try congruence.
Qed.

Lemma update_selected_street_first_witness :
  NoDup (map fst two_flagged) /\
  exists street : list string,
    update_selected_street (serialise_clicks (state_json two_flagged)) = Ok street /\
    street = match map fst (filter flagged two_flagged) with
             | [] => ["Dundas"]
             | first :: others => first :: others
             end /\
    street <> [] /\
    first_of (Items street)
    = Ok (match find flagged two_flagged with
          | Some kv => fst kv
          | None => "Dundas"
          end) /\
    hd_error STREETS = Some "Dundas".
Proof.
  split; [exact STREETS_NoDup |].
  apply (update_selected_street_first two_flagged). exact STREETS_NoDup.
Defined.

(** ** Row classes *)

Lemma row_class_selected_iff (streetname first : string) :
  generate_row_class (streetname =? first) = "selected" <-> streetname = first.
Proof.
  destruct (String.eqb_spec streetname first); cbn; split; intros;
    try discriminate; try reflexivity; try assumption; try contradiction.
Qed.

Lemma row_class_notselected_iff (streetname first : string) :
  generate_row_class (streetname =? first) = "notselected" <-> streetname <> first.
Proof.
  destruct (String.eqb_spec streetname first); cbn; split; intros;
    try discriminate; try reflexivity; try assumption; try contradiction.
Qed.

(** C8: every value the selected-street callback derives is a list with a
    first element, the selected street; for every street the row class
    is "selected" exactly when the street is that first element, and
    "notselected" exactly when it is not; one such callback is
    registered for each street of the fixed set, in its order, and each
    of them gives the class of its own street. *)
Theorem row_class_follows_selection
  (streetname state_data : string) (street : list string) :
  update_selected_street state_data = Ok street ->
  exists (first : string) (others : list string),
    street = first :: others /\
    (create_row_click_function streetname (Items street) = "selected"
     <-> streetname = first) /\
    (create_row_click_function streetname (Items street) = "notselected"
     <-> streetname <> first) /\
    exists callbacks,
      row_callbacks = Ok callbacks /\
      map fst callbacks = STREETS /\
      forall key update_clicked_row,
        In (key, update_clicked_row) callbacks ->
        (update_clicked_row (Items street) = "selected" <-> key = first) /\
        (update_clicked_row (Items street) = "notselected" <-> key <> first).
Proof.
  intros H. apply update_selected_street_nonempty in H.
  destruct street as [| first others]; [congruence |].
  exists first, others. split; [reflexivity |].
  unfold create_row_click_function. cbn [first_of].
  split; [apply row_class_selected_iff |].
  split; [apply row_class_notselected_iff |].
  eexists. split; [reflexivity |]. split; [reflexivity |].
  intros key f Hin. cbn [map] in Hin.
  repeat (destruct Hin as [Hin | Hin];
          [injection Hin as <- <-; cbn [first_of];
           split; [apply row_class_selected_iff
                  | apply row_class_notselected_iff] |]).
  destruct Hin.
Qed.

Lemma row_class_follows_selection_witness :
  update_selected_street (serialise_clicks INITIAL_STATE) = Ok ["Dundas"] /\
  exists (first : string) (others : list string),
    ["Dundas"] = first :: others /\
    (create_row_click_function "Queen" (Items ["Dundas"]) = "selected"
     <-> "Queen" = first) /\
    (create_row_click_function "Queen" (Items ["Dundas"]) = "notselected"
     <-> "Queen" <> first) /\
    exists callbacks,
      row_callbacks = Ok callbacks /\
      map fst callbacks = STREETS /\
      forall key update_clicked_row,
        In (key, update_clicked_row) callbacks ->
        (update_clicked_row (Items ["Dundas"]) = "selected" <-> key = first) /\
        (update_clicked_row (Items ["Dundas"]) = "notselected" <-> key <> first).
Proof.
  split; [vm_compute; reflexivity |].
  apply (row_class_follows_selection "Queen" (serialise_clicks INITIAL_STATE)).
  vm_compute; reflexivity.
Defined.

(** ** Sequences of click reports *)

Lemma run_reports_state (reports : list (list Z)) (st : sel_state) :
  NoDup (map fst st) ->
  run_reports reports (serialise_clicks (state_json st))
  = Ok (serialise_clicks (state_json (fold_left next_state reports st))).
Proof.
  revert st. induction reports as [| rows reports IH]; intros st Hnd.
  - reflexivity.
  - cbn [run_reports fold_left]. rewrite (button_click_state st rows Hnd).
    cbn [bind]. apply IH. now rewrite next_state_keys.
Qed.

Lemma fold_next_state_keys (reports : list (list Z)) (st : sel_state) :
  map fst (fold_left next_state reports st) = map fst st.
Proof.
  revert st. induction reports as [| rows reports IH]; intros st;
    [reflexivity |]. cbn [fold_left]. now rewrite IH, next_state_keys.
Qed.

Lemma flagged_streets_incl (st : sel_state) (e : string) :
  In e (map fst (filter flagged st)) -> In e (map fst st).
Proof.
  intros H. apply in_map_iff in H as (kv & <- & Hin).
  apply filter_In in Hin as [Hin _]. now apply in_map.
Qed.

(** C3, as stated, fails: a report that raises two counters leaves two
    selected streets after reduction and derivation. *)
Lemma selection_after_reports_not_single :
  ~ (forall reports : list (list Z),
        exists e : string,
          (s <- run_reports reports (serialise_clicks INITIAL_STATE) ;;
           update_selected_street s) = Ok [e]).
Proof.
  intros H. destruct (H [[2; 1; 0; 0; 0; 0]%Z]) as [e He].
  vm_compute in He. discriminate He.
Qed.

(** C3, amended: after any sequence of click reports from the initial
    state, reduction and derivation succeed and give a non-empty list of
    streets of the fixed set, never zero; it is a single street whenever
    the reduced state flags at most one, and in every case exactly one
    street, the first of the list, is given the row class "selected". *)
Theorem selection_after_reports (reports : list (list Z)) :
  exists (st : sel_state) (street : list string) (first : string),
    run_reports reports (serialise_clicks INITIAL_STATE)
    = Ok (serialise_clicks (state_json st)) /\
    map fst st = STREETS /\
    update_selected_street (serialise_clicks (state_json st)) = Ok street /\
    first_of (Items street) = Ok first /\
    In first STREETS /\
    (forall e, In e street -> In e STREETS) /\
    (List.length (filter flagged st) <= 1 -> street = [first]) /\
    (forall streetname,
        create_row_click_function streetname (Items street) = "selected"
        <-> streetname = first).
Proof.
  set (st := fold_left next_state reports initial_state).
  assert (Hkeys : map fst st = STREETS) by apply fold_next_state_keys.
  assert (Hnd : NoDup (map fst st)) by (rewrite Hkeys; exact STREETS_NoDup).
  pose proof (update_selected_street_state st Hnd) as Hsel.
  pose proof (flagged_streets_incl st) as Hincl. rewrite Hkeys in Hincl.
  assert (Hlen : List.length (map fst (filter flagged st)) = List.length (filter flagged st))
    by apply List.length_map.
  destruct (map fst (filter flagged st)) as [| first others] eqn:E.
  - exists st, ["Dundas"], "Dundas".
    split; [apply (run_reports_state reports initial_state), STREETS_NoDup |].
    repeat split; auto.
    + cbn; auto.
    + intros e [<- | []]. cbn; auto.
    + apply row_class_selected_iff.
    + apply row_class_selected_iff.
  - exists st, (first :: others), first.
    split; [apply (run_reports_state reports initial_state), STREETS_NoDup |].
    repeat split; auto.
    + apply Hincl. now left.
    + intros Hle. destruct others; [reflexivity | cbn in Hlen; lia].
    + apply row_class_selected_iff.
    + apply row_class_selected_iff.
Qed.

(** ** The chart queries *)

Lemma graph_mask_key (street direction day_type period : string) (m : Measurement) :
  graph_mask street direction day_type period m = true
  <-> has_key street direction day_type period m.
Proof.
  unfold graph_mask, has_key. rewrite !andb_true_iff, !String.eqb_eq. tauto.
Qed.

Lemma filter_StronglySorted {A : Type} (R : A -> A -> Prop) (f : A -> bool)
  (l : list A) :
  StronglySorted R l -> StronglySorted R (filter f l).
Proof.
  induction 1 as [| a l Hs IH Hall]; cbn [filter]; [constructor |].
  destruct (f a); [| exact IH].
  constructor; [exact IH |].
  rewrite Forall_forall in *. intros x Hx. apply filter_In in Hx as [Hx _]. auto.
Qed.

Lemma filter_split_Permutation {A : Type} (f : A -> bool) (l : list A) :
  Permutation l (filter f l ++ filter (fun x => negb (f x)) l).
Proof.
  induction l as [| a l IH]; cbn [filter]; [constructor |].
  destruct (f a); cbn [negb app].
  - now constructor.
  - now apply Permutation_cons_app.
Qed.

(** The query returns the rows of a frame that carry the key, each as
    the frame holds it and as often, in the order of the frame. *)
Lemma filter_rows_spec (street direction day_type period : string)
  (df : DataFrame) :
  let rows := filter (graph_mask street direction day_type period) df in
  Forall (has_key street direction day_type period) rows /\
  (exists others,
      Permutation df (rows ++ others) /\
      Forall (fun m => ~ has_key street direction day_type period m) others) /\
  (forall R : Measurement -> Measurement -> Prop,
      StronglySorted R df -> StronglySorted R rows).
Proof.
  intros rows. split; [| split].
  - apply Forall_forall. intros m Hm. apply filter_In in Hm as [_ Hm].
    now apply graph_mask_key.
  - exists (filter (fun m => negb (graph_mask street direction day_type period m)) df).
    split; [apply filter_split_Permutation |].
    apply Forall_forall. intros m Hm. apply filter_In in Hm as [_ Hm].
    rewrite <- graph_mask_key. now destruct (graph_mask _ _ _ _ m).
  - intros R. apply filter_StronglySorted.
Qed.

(** C5, as stated, fails: the query does not sort, so a frame that
    holds a later date first is returned with the later date first. *)
Lemma filter_graph_data_not_sorted :
  ~ (forall (DATA BASELINE : DataFrame) (street direction day_type period : string),
        StronglySorted date_le
          (fst (filter_graph_data DATA BASELINE street direction day_type period))).
Proof.
  intros H.
  specialize (H later_first later_first "Front" "EB" "Weekday" "AMPK").
  cbn in H. inversion H as [| a l _ Hall]; subst.
  inversion Hall as [| b l' Hle _]; subst.
  vm_compute in Hle. discriminate Hle.
Qed.

(** C5, amended: the query filters both frames to the four-way key and
    returns the matching measurements unaggregated, every one as the
    frame holds it, in the order of the frame; they are in ascending
    date order whenever the frame is. *)
Theorem filter_graph_data_in_frame_order
  (DATA BASELINE : DataFrame) (street direction day_type period : string) :
  let after_data :=
    fst (filter_graph_data DATA BASELINE street direction day_type period) in
  let base_data :=
    snd (filter_graph_data DATA BASELINE street direction day_type period) in
  Forall (has_key street direction day_type period) after_data /\
  Forall (has_key street direction day_type period) base_data /\
  (exists others,
      Permutation DATA (after_data ++ others) /\
      Forall (fun m => ~ has_key street direction day_type period m) others) /\
  (exists others,
      Permutation BASELINE (base_data ++ others) /\
      Forall (fun m => ~ has_key street direction day_type period m) others) /\
  (forall R : Measurement -> Measurement -> Prop,
      (StronglySorted R DATA -> StronglySorted R after_data) /\
      (StronglySorted R BASELINE -> StronglySorted R base_data)) /\
  (StronglySorted date_le DATA -> StronglySorted date_le after_data) /\
  (StronglySorted date_le BASELINE -> StronglySorted date_le base_data).
Proof.
  intros after_data base_data. subst after_data base_data.
  unfold filter_graph_data. cbn [fst snd].
  destruct (filter_rows_spec street direction day_type period DATA)
    as (Hk & Hp & Hs).
  destruct (filter_rows_spec street direction day_type period BASELINE)
    as (Hk' & Hp' & Hs').
  repeat split; auto.
Qed.

(** C6: when no measurement of either frame carries the key, the query
    returns two empty frames, and for a direction of [DIRECTIONS] the
    chart is a figure whose one bar series is empty. *)
Theorem generate_graph_empty
  (DATA BASELINE : DataFrame) (street direction day_type period : string) :
  (forall m, In m DATA -> ~ has_key street direction day_type period m) ->
  (forall m, In m BASELINE -> ~ has_key street direction day_type period m) ->
  filter_graph_data DATA BASELINE street direction day_type period = ([], []) /\
  (In direction (map fst DIRECTIONS) ->
   exists title,
     lookup direction DIRECTIONS = Some title /\
     generate_graph DATA BASELINE street direction day_type period
     = Ok (mkFigure title "Date" "Travel Time (min)" [mkBar [] []])).
Proof.
  intros HD HB.
  assert (Hempty : forall df,
             (forall m, In m df -> ~ has_key street direction day_type period m) ->
             filter (graph_mask street direction day_type period) df = []).
  { intros df Hdf. induction df as [| m df IH]; [reflexivity |].
    cbn [filter].
    destruct (graph_mask street direction day_type period m) eqn:E.
    - exfalso. apply (Hdf m); [now left | now apply graph_mask_key].
    - apply IH. intros x Hx. apply Hdf. now right. }
  unfold generate_graph, filter_graph_data.
  rewrite (Hempty DATA HD), (Hempty BASELINE HB).
  split; [reflexivity |].
  intros [<- | [<- | []]]; eexists; split; reflexivity.
Qed.

Lemma generate_graph_empty_witness :
  (forall m, In m queen_only -> ~ has_key "Front" "EB" "Weekday" "AMPK" m) /\
  filter_graph_data queen_only queen_only "Front" "EB" "Weekday" "AMPK" = ([], []) /\
  (In "EB" (map fst DIRECTIONS) ->
   exists title,
     lookup "EB" DIRECTIONS = Some title /\
     generate_graph queen_only queen_only "Front" "EB" "Weekday" "AMPK"
     = Ok (mkFigure title "Date" "Travel Time (min)" [mkBar [] []])).
Proof.
  assert (H : forall m, In m queen_only -> ~ has_key "Front" "EB" "Weekday" "AMPK" m).
  { intros m [<- | []] [Hs _]. discriminate Hs. }
  split; [exact H |].
  exact (generate_graph_empty queen_only queen_only "Front" "EB" "Weekday" "AMPK" H H).
Defined.

(** ** Cell styling *)

Lemma below_not_above (d : float) :
  (d <? - THRESHOLD)%float = true -> (THRESHOLD <? d)%float = false.
Proof.
  rewrite !ltb_spec, opp_spec.
  replace (Prim2SF THRESHOLD) with (S754_finite false 4503599627370496 (-52))
    by reflexivity.
  unfold SFltb, SFcompare; cbn [SFopp negb].
  destruct (Prim2SF d) as [s | s | | s m e]; try destruct s; try discriminate;
    reflexivity.
Qed.

(** C4: the cell class is "worse" exactly when [after - before > 1],
    "better" exactly when [after - before < -1], and "same" otherwise;
    the three boundary examples evaluate as the specification says. *)
Theorem after_cell_class_threshold :
  (forall before after : float,
      (after_cell_class before after = "worse"
       <-> float_gt (after - before) 1) /\
      (after_cell_class before after = "better"
       <-> float_lt (after - before) (-1)) /\
      (after_cell_class before after = "same"
       <-> ~ float_gt (after - before) 1 /\ ~ float_lt (after - before) (-1))) /\
  after_cell_class 10 11 = "same" /\
  after_cell_class 10 11.01 = "worse" /\
  after_cell_class 10 8.99 = "better".
Proof.
  split; [| repeat split; vm_compute; reflexivity].
  intros before after; unfold after_cell_class, float_gt, float_lt.
  change (-1)%float with (- THRESHOLD)%float. change 1%float with THRESHOLD.
  pose proof (below_not_above (after - before)) as Hx.
  destruct (THRESHOLD <? after - before)%float eqn:Hw;
    destruct (after - before <? - THRESHOLD)%float eqn:Hb;
    repeat split; intros; try discriminate; try tauto; try reflexivity;
    try (specialize (Hx eq_refl); discriminate);
    try (destruct H; congruence).
Qed.

(** ** Sorted distinct keys *)

Lemma mem_In (a : string) (l : list string) : mem a l = true <-> In a l.
Proof.
  unfold mem. rewrite existsb_exists. split.
  - intros (x & Hx & E). apply String.eqb_eq in E. now subst.
  - intros H. exists a. split; [exact H | apply String.eqb_refl].
Qed.

Lemma insert_sorted_Permutation (s : string) (l : list string) :
  Permutation (insert_sorted s l) (s :: l).
Proof.
  induction l as [| x l IH]; cbn [insert_sorted]; [reflexivity |].
  destruct (s <=? x)%string; [reflexivity |].
  rewrite IH. apply perm_swap.
Qed.

Lemma sorted_unique_Permutation (l : list string) :
  Permutation (sorted_unique l) (nodup string_dec l).
Proof.
  unfold sorted_unique. induction (nodup string_dec l) as [| x r IH];
    cbn [fold_right]; [reflexivity |].
  rewrite insert_sorted_Permutation. now constructor.
Qed.

Lemma sorted_unique_In (x : string) (l : list string) :
  In x (sorted_unique l) <-> In x l.
Proof.
  rewrite <- (nodup_In string_dec l x). split; apply Permutation_in;
    [| symmetry]; apply sorted_unique_Permutation.
Qed.

Lemma sorted_unique_NoDup (l : list string) : NoDup (sorted_unique l).
Proof.
  apply (Permutation_NoDup (l := nodup string_dec l)).
  - symmetry. apply sorted_unique_Permutation.
  - apply NoDup_nodup.
Qed.

(** In a list without repetition, the elements equal to [a] are [a]
    itself, once, when it occurs. *)
Lemma flat_map_select {B : Type} (a : string) (g : string -> list B)
  (l : list string) :
  NoDup l ->
  flat_map (fun x => if (x =? a)%string then g x else []) l
  = if mem a l then g a else [].
Proof.
  induction 1 as [| x l Hx Hnd IH]; [reflexivity |].
  cbn [flat_map mem existsb]. fold (mem a l). rewrite IH.
  rewrite (String.eqb_sym a x).
  destruct (String.eqb_spec x a) as [-> | Hne]; cbn [orb].
  - replace (mem a l) with false; [apply List.app_nil_r |].
    symmetry. apply not_true_is_false. now rewrite mem_In.
  - reflexivity.
Qed.

Lemma filter_select (a : string) (l : list string) :
  NoDup l ->
  filter (fun x => (x =? a)%string) l = if mem a l then [a] else [].
Proof.
  intros H. rewrite <- (flat_map_select a (fun x => [x]) l H).
  induction l as [| x l IH]; [reflexivity |].
  cbn [filter flat_map]. inversion H; subst.
  destruct (x =? a)%string; cbn [app]; now rewrite IH.
Qed.

(** ** The table aggregation *)

Lemma flat_map_ext_in {A B : Type} (f g : A -> list B) (l : list A) :
  (forall a, In a l -> f a = g a) -> flat_map f l = flat_map g l.
Proof.
  induction l as [| a l IH]; intros H; [reflexivity |].
  cbn [flat_map]. rewrite (H a), IH; [reflexivity | | now left].
  intros x Hx. apply H. now right.
Qed.

Lemma flat_map_singletons {A B : Type} (p : A -> bool) (g : A -> B) (l : list A) :
  flat_map (fun a => if p a then [g a] else []) l = map g (filter p l).
Proof.
  induction l as [| a l IH]; [reflexivity |].
  cbn [flat_map filter]. rewrite IH. now destruct (p a).
Qed.

Lemma filter_flat_map {A B : Type} (p : B -> bool) (f : A -> list B) (l : list A) :
  filter p (flat_map f l) = flat_map (fun a => filter p (f a)) l.
Proof.
  induction l as [| a l IH]; [reflexivity |].
  cbn [flat_map]. now rewrite filter_app, IH.
Qed.

Lemma mem_ext (l l' : list string) :
  (forall x, In x l <-> In x l') -> forall x, mem x l = mem x l'.
Proof.
  intros H x. destruct (mem x l') eqn:E.
  - apply mem_In, H, mem_In, E.
  - apply not_true_is_false. intros E'. apply mem_In, H, mem_In in E'. congruence.
Qed.

Lemma set_categories_mem (cats : list string) (s : string) :
  set_categories cats (Some s) = if mem s cats then Some s else None.
Proof. reflexivity. Qed.

Lemma sort_values_rows (cats idx : list string)
  (cells : string -> list (option float)) :
  NoDup idx ->
  sort_values cats
    (map (fun s => mkPivotRow (set_categories cats (Some s)) (cells s)) idx)
  = (map (fun c => mkPivotRow (Some c) (cells c))
         (filter (fun c => mem c idx) cats)
     ++ map (fun s => mkPivotRow None (cells s))
            (filter (fun s => negb (mem s cats)) idx))%list.
Proof.
  intros Hnd. unfold sort_values. f_equal.
  - rewrite <- flat_map_singletons. apply flat_map_ext_in. intros c Hc.
    transitivity (map (fun s => mkPivotRow (Some s) (cells s))
                      (filter (fun x => (x =? c)%string) idx)).
    + clear Hnd. induction idx as [| s idx IH]; [reflexivity |].
      cbn [map filter]. rewrite IH.
      unfold has_label at 1. cbn [pr_street]. rewrite set_categories_mem.
      destruct (String.eqb_spec s c) as [-> | Hne].
      * apply mem_In in Hc. rewrite Hc, String.eqb_refl. reflexivity.
      * destruct (mem s cats); [| reflexivity].
        apply String.eqb_neq in Hne. now rewrite Hne.
    + rewrite (filter_select c idx Hnd). now destruct (mem c idx).
  - clear Hnd. induction idx as [| s idx IH]; [reflexivity |].
    cbn [map filter]. rewrite IH.
    unfold has_label at 1. cbn [pr_street]. rewrite set_categories_mem.
    destruct (mem s cats); reflexivity.
Qed.

Lemma directions_of_In (s d : string) (df : list Obs) :
  In d (directions_of s df)
  <-> exists o, In o df /\ o_street o = s /\ o_direction o = d.
Proof.
  unfold directions_of. rewrite sorted_unique_In, in_map_iff. split.
  - intros (o & Hd & Ho). apply filter_In in Ho as [Ho Hs].
    apply String.eqb_eq in Hs. eauto.
  - intros (o & Ho & Hs & Hd). exists o. split; [exact Hd |].
    apply filter_In. split; [exact Ho | now apply String.eqb_eq].
Qed.

Lemma group_tt_nil (s d : string) (df : list Obs) :
  group_tt s d df = []
  <-> ~ exists o, In o df /\ o_street o = s /\ o_direction o = d.
Proof.
  unfold group_tt. split.
  - intros H (o & Ho & Hs & Hd).
    apply map_eq_nil in H.
    assert (Hin : In o (filter (fun o => (o_street o =? s)%string
                                         && (o_direction o =? d)%string) df)).
    { apply filter_In. split; [exact Ho |].
      subst. now rewrite !String.eqb_refl. }
    rewrite H in Hin. exact Hin.
  - intros H.
    destruct (filter (fun o => (o_street o =? s)%string
                               && (o_direction o =? d)%string) df)
      as [| o l] eqn:E; [reflexivity |].
    exfalso. apply H. exists o.
    assert (Hin : In o (o :: l)) by now left.
    rewrite <- E in Hin. apply filter_In in Hin as [Ho Hk].
    apply andb_true_iff in Hk as [Hs Hd].
    apply String.eqb_eq in Hs, Hd. auto.
Qed.

Lemma group_tt_cons (s d : string) (df : list Obs) (t : float) (g : list float) :
  group_tt s d df = t :: g ->
  exists o, In o df /\ o_street o = s /\ o_direction o = d.
Proof.
  unfold group_tt. intros H.
  destruct (filter (fun o => (o_street o =? s)%string
                             && (o_direction o =? d)%string) df)
    as [| o l] eqn:E; [discriminate H |].
  exists o.
  assert (Hin : In o (o :: l)) by now left.
  rewrite <- E in Hin. apply filter_In in Hin as [Ho Hk].
  apply andb_true_iff in Hk as [Hs Hd].
  apply String.eqb_eq in Hs, Hd. auto.
Qed.

Lemma groupby_mean_In (o : Obs) (df : list Obs) :
  In o (groupby_mean df)
  <-> In (o_direction o) (directions_of (o_street o) df) /\
      In (o_street o) (map o_street df) /\
      o_tt o = mean (group_tt (o_street o) (o_direction o) df).
Proof.
  unfold groupby_mean. fold (directions_of). rewrite in_flat_map. split.
  - intros (s & Hs & Ho). apply in_map_iff in Ho as (d & <- & Hd).
    cbn [o_street o_direction o_tt]. rewrite sorted_unique_In in Hs.
    repeat split; try assumption; reflexivity.
  - intros (Hd & Hs & Ht). exists (o_street o).
    split; [now apply sorted_unique_In |].
    apply in_map_iff. exists (o_direction o). split; [| exact Hd].
    destruct o as [s d t]. cbn in *. now subst.
Qed.

Lemma groupby_mean_streets (s : string) (df : list Obs) :
  In s (map o_street (groupby_mean df)) <-> In s (map o_street df).
Proof.
  rewrite !in_map_iff. split.
  - intros (o & <- & Ho). apply groupby_mean_In in Ho as (_ & Hs & _).
    now apply in_map_iff in Hs.
  - intros (o & <- & Ho).
    exists (mkObs (o_street o) (o_direction o)
                  (mean (group_tt (o_street o) (o_direction o) df))).
    split; [reflexivity |]. apply groupby_mean_In. cbn [o_street o_direction o_tt].
    repeat split.
    + apply directions_of_In. eauto.
    + now apply in_map.
Qed.

Lemma groupby_mean_directions (d : string) (df : list Obs) :
  In d (map o_direction (groupby_mean df)) <-> In d (map o_direction df).
Proof.
  rewrite !in_map_iff. split.
  - intros (o & <- & Ho). apply groupby_mean_In in Ho as (Hd & _ & _).
    apply directions_of_In in Hd as (o' & Ho' & _ & Hd). eauto.
  - intros (o & <- & Ho).
    exists (mkObs (o_street o) (o_direction o)
                  (mean (group_tt (o_street o) (o_direction o) df))).
    split; [reflexivity |]. apply groupby_mean_In. cbn [o_street o_direction o_tt].
    repeat split.
    + apply directions_of_In. eauto.
    + now apply in_map.
Qed.

Lemma filter_group_rows (s' s d : string) (f : string -> float) (l : list string) :
  filter (fun o => (o_street o =? s)%string && (o_direction o =? d)%string)
         (map (fun d' => mkObs s' d' (f d')) l)
  = map (fun d' => mkObs s' d' (f d'))
        (filter (fun d' => (s' =? s)%string && (d' =? d)%string) l).
Proof.
  induction l as [| d' l IH]; [reflexivity |].
  cbn [map filter o_street o_direction]. rewrite IH.
  now destruct ((s' =? s)%string && (d' =? d)%string).
Qed.

(** After [groupby], a group holds one row: its mean. *)
Lemma group_tt_groupby_mean (s d : string) (df : list Obs) :
  group_tt s d (groupby_mean df)
  = match group_tt s d df with
    | [] => []
    | g => [mean g]
    end.
Proof.
  unfold group_tt at 1, groupby_mean. fold directions_of.
  rewrite filter_flat_map.
  rewrite (flat_map_ext_in _
             (fun s' => if (s' =? s)%string
                        then (if mem d (directions_of s' df)
                              then [mkObs s' d (mean (group_tt s' d df))]
                              else [])
                        else [])).
  - rewrite flat_map_select by apply sorted_unique_NoDup.
    destruct (group_tt s d df) as [| t g] eqn:E.
    + apply group_tt_nil in E.
      destruct (mem d (directions_of s df)) eqn:Hd.
      * exfalso. apply E. apply directions_of_In. now apply mem_In.
      * now destruct (mem s _).
    + assert (Hex : exists o, In o df /\ o_street o = s /\ o_direction o = d)
        by (apply (group_tt_cons s d df t g), E).
      destruct Hex as (o & Ho & Hs & Hd).
      replace (mem s (sorted_unique (map o_street df))) with true.
      * replace (mem d (directions_of s df)) with true; [reflexivity |].
        symmetry. apply mem_In, directions_of_In. eauto.
      * symmetry. apply mem_In, sorted_unique_In. subst s. now apply in_map.
  - intros s' _. unfold directions_of.
    pose proof (sorted_unique_NoDup
                  (map o_direction
                       (filter (fun o => (o_street o =? s')%string) df))) as Hnd.
    revert Hnd.
    generalize (sorted_unique
                  (map o_direction (filter (fun o => (o_street o =? s')%string) df))).
    intros l Hnd. rewrite filter_group_rows.
    destruct (s' =? s)%string; cbn [andb].
    + rewrite (filter_select d l Hnd). now destruct (mem d l).
    + clear Hnd. induction l as [| x l IH]; [reflexivity | exact IH].
Qed.


(** ** The kernels on examples *)

Example mean_examples :
  mean [10; 11]%float = 10.5%float /\
  mean [1e16; 1; 1]%float = 3333333333333334%float /\
  mean [PrimFloat.nan; 4]%float = 4%float /\
  PrimFloat.is_nan (mean [PrimFloat.nan]) = true /\
  PrimFloat.is_nan (mean []) = true.
Proof. repeat split; vm_compute; reflexivity. Qed.

Example round1_examples :
  round1 10.46%float = 10.5%float /\
  round1 2.25%float = 2.2%float /\
  round1 (-2.35)%float = (-2.4)%float /\
  PrimFloat.get_sign (round1 (-0.04)%float) = true /\
  PrimFloat.is_nan (round1 PrimFloat.nan) = true.
Proof. repeat split; vm_compute; reflexivity. Qed.

(** ** Groups that are kept *)

Lemma bool_eq_iff (a b : bool) : (a = true <-> b = true) -> a = b.
Proof. destruct a, b; intros [H1 H2]; auto; symmetry; auto. Qed.

Lemma kept_group (agg : list float -> float) (s d : string) (df : list Obs) :
  kept agg s d df = true ->
  exists o, In o df /\ o_street o = s /\ o_direction o = d.
Proof.
  unfold kept. destruct (group_tt s d df) as [| t g] eqn:E; [discriminate |].
  intros _. exact (group_tt_cons s d df t g E).
Qed.

Lemma has_direction_spec (agg : list float -> float) (d : string) (df : list Obs) :
  has_direction agg d df = true <-> exists s, kept agg s d df = true.
Proof.
  unfold has_direction. rewrite existsb_exists. split.
  - intros (o & _ & H). eauto.
  - intros (s & H). destruct (kept_group agg s d df H) as (o & Ho & <- & _).
    eauto.
Qed.

Lemma has_street_spec (agg : list float -> float) (s : string) (df : list Obs) :
  has_street agg s df = true <-> exists d, kept agg s d df = true.
Proof.
  unfold has_street. rewrite existsb_exists. split.
  - intros (o & _ & H). eauto.
  - intros (d & H). destruct (kept_group agg s d df H) as (o & Ho & _ & <-).
    eauto.
Qed.

Lemma kept_table_cell (agg : list float -> float) (s d : string) (df : list Obs) :
  kept agg s d df = match table_cell agg s d df with
                    | Some _ => true
                    | None => false
                    end.
Proof. unfold table_cell. now destruct (kept agg s d df). Qed.

(** ** The pivot *)

Lemma group_tt_dropna (s d : string) (agged : list Obs) :
  group_tt s d (dropna agged)
  = filter (fun x => negb (PrimFloat.is_nan x)) (group_tt s d agged).
Proof.
  unfold group_tt, dropna.
  induction agged as [| o l IH]; [reflexivity |].
  cbn [filter].
  destruct ((o_street o =? s)%string && (o_direction o =? d)%string) eqn:Ek;
    destruct (negb (PrimFloat.is_nan (o_tt o))) eqn:En;
    cbn [filter map]; rewrite ?Ek, ?En; cbn [map]; now rewrite IH.
Qed.

Lemma pivot_cell_agged (s d : string) (df : list Obs) :
  option_map round1 (pivot_cell s d (dropna (groupby_mean df)))
  = table_cell mean s d df.
Proof.
  unfold pivot_cell, table_cell, kept.
  rewrite group_tt_dropna, group_tt_groupby_mean.
  destruct (group_tt s d df) as [| t g]; [reflexivity |].
  cbn [filter]. now destruct (PrimFloat.is_nan (mean (t :: g))).
Qed.

Lemma agged_In (o : Obs) (df : list Obs) :
  In o (dropna (groupby_mean df))
  <-> kept mean (o_street o) (o_direction o) df = true /\
      o_tt o = mean (group_tt (o_street o) (o_direction o) df).
Proof.
  unfold dropna. rewrite filter_In, groupby_mean_In. unfold kept. split.
  - intros ((Hd & _ & Ht) & Hn). split; [| exact Ht].
    destruct (group_tt (o_street o) (o_direction o) df) as [| t g] eqn:E.
    + exfalso. apply group_tt_nil in E. apply E.
      now apply directions_of_In.
    + now rewrite <- Ht.
  - intros (Hk & Ht).
    destruct (group_tt (o_street o) (o_direction o) df) as [| t g] eqn:E;
      [discriminate |].
    destruct (group_tt_cons _ _ _ _ _ E) as (o' & Ho' & Hs & Hd).
    repeat split.
    + apply directions_of_In. eauto.
    + rewrite <- Hs. now apply in_map.
    + exact Ht.
    + now rewrite Ht.
Qed.

Lemma agged_directions (d : string) (df : list Obs) :
  In d (map o_direction (dropna (groupby_mean df)))
  <-> has_direction mean d df = true.
Proof.
  rewrite has_direction_spec, in_map_iff. split.
  - intros (o & <- & Ho). apply agged_In in Ho as [Hk _]. eauto.
  - intros (s & Hk).
    exists (mkObs s d (mean (group_tt s d df))). split; [reflexivity |].
    apply agged_In. cbn [o_street o_direction o_tt]. now split.
Qed.

Lemma agged_streets (s : string) (df : list Obs) :
  In s (map o_street (dropna (groupby_mean df)))
  <-> has_street mean s df = true.
Proof.
  rewrite has_street_spec, in_map_iff. split.
  - intros (o & <- & Ho). apply agged_In in Ho as [Hk _]. eauto.
  - intros (d & Hk).
    exists (mkObs s d (mean (group_tt s d df))). split; [reflexivity |].
    apply agged_In. cbn [o_street o_direction o_tt]. now split.
Qed.

Lemma pivot_order_aggregated (df : list Obs) :
  aggregated mean df (pivot_order df).
Proof.
  unfold aggregated, pivot_order, pivot_table. cbn [pv_columns pv_rows].
  split; [apply sorted_unique_NoDup |].
  split; [intros d; rewrite sorted_unique_In; apply agged_directions |].
  exists (filter (fun s => negb (mem s STREETS))
                 (sorted_unique (map o_street (dropna (groupby_mean df))))).
  split; [apply NoDup_filter, sorted_unique_NoDup |]. split.
  - intros s. rewrite filter_In, sorted_unique_In, negb_true_iff.
    rewrite <- not_true_iff_false, mem_In, agged_streets. reflexivity.
  - rewrite map_map. cbn [pr_street pr_cells].
    rewrite (sort_values_rows STREETS
               (sorted_unique (map o_street (dropna (groupby_mean df))))
               (fun s => map (fun d => pivot_cell s d (dropna (groupby_mean df)))
                             (sorted_unique
                                (map o_direction (dropna (groupby_mean df))))))
      by apply sorted_unique_NoDup.
    rewrite map_app, !map_map. cbn [pr_street pr_cells].
    f_equal.
    + rewrite (filter_ext _ (fun c => has_street mean c df)).
      * apply map_ext. intros c. f_equal. rewrite map_map. apply map_ext.
        intros d. apply pivot_cell_agged.
      * intros c. apply bool_eq_iff.
        now rewrite mem_In, sorted_unique_In, agged_streets.
    + apply map_ext. intros c. f_equal. rewrite map_map. apply map_ext.
      intros d. apply pivot_cell_agged.
Qed.

Lemma aggregated_transfer (agg agg' : list float -> float) (df df' : list Obs)
  (p : Pivoted) :
  (forall s d, table_cell agg' s d df' = table_cell agg s d df) ->
  aggregated agg' df' p -> aggregated agg df p.
Proof.
  intros Hc (Hnd & Hcols & others & Hnd' & Hothers & Hrows).
  assert (Hk : forall s d, kept agg' s d df' = kept agg s d df)
    by (intros s d; now rewrite !kept_table_cell, Hc).
  assert (Hd : forall d, has_direction agg' d df' = true
                         <-> has_direction agg d df = true).
  { intros d. rewrite !has_direction_spec.
    split; intros (s & H); exists s; [rewrite <- Hk | rewrite Hk]; exact H. }
  assert (Hs : forall s, has_street agg' s df' = true
                         <-> has_street agg s df = true).
  { intros s. rewrite !has_street_spec.
    split; intros (d & H); exists d; [rewrite <- Hk | rewrite Hk]; exact H. }
  split; [exact Hnd |]. split; [intros d; now rewrite Hcols |].
  exists others. split; [exact Hnd' |]. split.
  - intros s. now rewrite Hothers, Hs.
  - rewrite Hrows. f_equal.
    + rewrite (filter_ext _ (fun c => has_street agg c df))
        by (intros c; now apply bool_eq_iff).
      apply map_ext. intros c. f_equal. apply map_ext. intros d. apply Hc.
    + apply map_ext. intros c. f_equal. apply map_ext. intros d. apply Hc.
Qed.

(** The cells of the current frame: the mean of the one mean that
    [groupby] leaves of a group. *)
Lemma table_cell_groupby_mean (s d : string) (df : list Obs) :
  table_cell mean s d (groupby_mean df) = table_cell twice s d df.
Proof.
  unfold table_cell, kept, twice. rewrite group_tt_groupby_mean.
  now destruct (group_tt s d df).
Qed.

Lemma matching_spec (period day_type : string) (df : DataFrame) (o : Obs) :
  In o (matching period day_type df)
  <-> exists m, In m df /\ m_period m = period /\ m_day_type m = day_type /\
                o = mkObs (m_street m) (m_direction m) (m_tt m).
Proof.
  unfold matching, observations. rewrite in_map_iff. split.
  - intros (m & <- & Hm). apply filter_In in Hm as [Hm Hk].
    unfold table_mask in Hk. apply andb_true_iff in Hk as [Hp Hd].
    apply String.eqb_eq in Hp, Hd. exists m. auto.
  - intros (m & Hm & Hp & Hd & ->). exists m. split; [reflexivity |].
    apply filter_In. split; [exact Hm |]. unfold table_mask.
    now rewrite andb_true_iff, !String.eqb_eq.
Qed.

(** The table of [with_king]. *)
Lemma with_king_rows :
  pv_rows (fst (filter_table_data with_king with_king "AMPK" "Weekday"))
  = [mkPivotRow (Some "Dundas") [Some 10%float];
     mkPivotRow None [Some 20%float]].
Proof. vm_compute. reflexivity. Qed.

(** C7, as stated, fails: the row of a street outside the canonical set
    is not dropped; it stays in the table, after the canonical rows,
    with its label lost. *)
Lemma filter_table_data_keeps_other_streets :
  ~ (forall (DATA BASELINE : DataFrame) (period day_type : string),
        Forall (fun r => exists c, pr_street r = Some c /\ In c STREETS)
               (pv_rows (fst (filter_table_data DATA BASELINE
                                                period day_type)))).
Proof.
  intros H.
  specialize (H with_king with_king "AMPK" "Weekday").
  rewrite with_king_rows in H.
  inversion H as [| r l _ Hl]; subst.
  inversion Hl as [| r' l' (c & Hc & _) _]; subst.
  discriminate Hc.
Qed.

(** C7, amended: for every period and day-type the aggregation reads
    the street, direction and travel time of the measurements of that
    period and day-type, groups them by street and direction, and takes
    the mean of each group, the travel times that are NaN skipped (for
    the current data the mean is taken twice, once by [groupby] and
    once by [pivot_table]); a group whose mean is NaN is dropped; each
    cell holds the mean of its group rounded to one decimal; there is
    one column per direction that is left, and the rows are first the
    canonical streets that are left, in canonical order and under their
    labels, then, not dropped, one row for every other street that is
    left, its label lost. *)
Theorem filter_table_data_aggregated
  (DATA BASELINE : DataFrame) (period day_type : string) :
  (forall o, In o (matching period day_type DATA)
             <-> exists m, In m DATA /\ m_period m = period /\
                           m_day_type m = day_type /\
                           o = mkObs (m_street m) (m_direction m) (m_tt m)) /\
  (forall o, In o (matching period day_type BASELINE)
             <-> exists m, In m BASELINE /\ m_period m = period /\
                           m_day_type m = day_type /\
                           o = mkObs (m_street m) (m_direction m) (m_tt m)) /\
  aggregated twice (matching period day_type DATA)
    (fst (filter_table_data DATA BASELINE period day_type)) /\
  aggregated mean (matching period day_type BASELINE)
    (snd (filter_table_data DATA BASELINE period day_type)).
Proof.
  split; [intros o; apply matching_spec |].
  split; [intros o; apply matching_spec |].
  unfold filter_table_data, matching. cbn [fst snd]. split.
  - apply (aggregated_transfer _ mean _
             (groupby_mean
                (observations (filter (table_mask period day_type) DATA)))).
    + intros s d. apply table_cell_groupby_mean.
    + apply pivot_order_aggregated.
  - apply pivot_order_aggregated.
Qed.

(** ** Further properties of the reducer *)

Lemma next_state_length (st : sel_state) (rows : list Z) :
  List.length (next_state st rows) = List.length st.
Proof.
  rewrite <- (List.length_map fst (next_state st rows)), next_state_keys.
  apply List.length_map.
Qed.

Lemma next_state_app (st : sel_state) (rows extra : list Z) :
  List.length st <= List.length rows ->
  next_state st (rows ++ extra)%list = next_state st rows.
Proof.
  revert rows. induction st as [| [k o] st IH]; intros rows Hlen.
  - now destruct rows.
  - destruct rows as [| n rows]; [cbn in Hlen; lia |].
    cbn [List.app next_state]. rewrite IH; [reflexivity | cbn in Hlen; lia].
Qed.

Lemma next_state_beyond (st : sel_state) (rows : list Z) (i : nat) :
  List.length rows <= i ->
  nth_error (next_state st rows) i = nth_error st i.
Proof.
  revert rows i. induction st as [| [k o] st IH]; intros rows i Hlen.
  - now destruct rows.
  - destruct rows as [| n rows]; [reflexivity |].
    destruct i as [| i]; [cbn in Hlen; lia |].
    cbn [next_state nth_error]. apply IH. cbn in Hlen; lia.
Qed.

(** X1: the loop stops with the shorter of the store and the report:
    entries beyond the end of a short report keep counter and flag, and
    counters beyond the end of the store are ignored. *)
Theorem button_click_zip (st : sel_state) (rows : list Z) :
  NoDup (map fst st) ->
  exists st' : sel_state,
    button_click rows (serialise_clicks (state_json st))
    = Ok (serialise_clicks (state_json st')) /\
    List.length st' = List.length st /\
    (forall i, List.length rows <= i -> nth_error st' i = nth_error st i) /\
    (forall extra,
        List.length st <= List.length rows ->
        button_click (rows ++ extra)%list (serialise_clicks (state_json st))
        = button_click rows (serialise_clicks (state_json st))).
Proof.
  intros Hnd. exists (next_state st rows).
  split; [now apply button_click_state |].
  split; [apply next_state_length |].
  split; [intros i; apply next_state_beyond |].
  intros extra Hlen. rewrite !button_click_state by exact Hnd.
  now rewrite next_state_app.
Qed.

Lemma button_click_zip_witness :
  NoDup (map fst initial_state) /\
  exists st' : sel_state,
    button_click [1; 1]%Z (serialise_clicks (state_json initial_state))
    = Ok (serialise_clicks (state_json st')) /\
    List.length st' = List.length initial_state /\
    (forall i, List.length [1; 1]%Z <= i ->
               nth_error st' i = nth_error initial_state i) /\
    (forall extra,
        List.length initial_state <= List.length [1; 1]%Z ->
        button_click ([1; 1]%Z ++ extra)%list
                     (serialise_clicks (state_json initial_state))
        = button_click [1; 1]%Z (serialise_clicks (state_json initial_state))).
Proof.
  split; [exact STREETS_NoDup |].
  apply (button_click_zip initial_state [1; 1]%Z). exact STREETS_NoDup.
Defined.

Lemma next_state_no_raise (st : sel_state) (rows : list Z) :
  List.length st <= List.length rows ->
  (forall i kv n,
      nth_error st i = Some kv -> nth_error rows i = Some n ->
      (n <= n_clicks (snd kv))%Z) ->
  next_state st rows = map unflag st.
Proof.
  revert rows. induction st as [| [k o] st IH]; intros rows Hlen Hle.
  - now destruct rows.
  - destruct rows as [| n rows]; [cbn in Hlen; lia |].
    cbn [next_state map]. f_equal.
    + unfold unflag, next_click. cbn [fst snd].
      specialize (Hle 0 (k, o) n eq_refl eq_refl). cbn [snd] in Hle.
      destruct (Z.ltb_spec (n_clicks o) n); [lia | reflexivity].
    + apply IH; [cbn in Hlen; lia |].
      intros i kv m Hi Hm. exact (Hle (S i) kv m Hi Hm).
Qed.

Lemma filter_flagged_unflag (st : sel_state) : filter flagged (map unflag st) = [].
Proof. induction st as [| kv st IH]; [reflexivity | exact IH]. Qed.

Lemma unflag_keys (st : sel_state) : map fst (map unflag st) = map fst st.
Proof. rewrite map_map. reflexivity. Qed.

(** X2: a report that has a counter for every street and raises none
    clears every flag, leaves every counter as it was, and the derived
    selection falls back to 'Dundas'. *)
Theorem report_without_raise (st : sel_state) (rows : list Z) :
  NoDup (map fst st) ->
  List.length st <= List.length rows ->
  (forall i kv n,
      nth_error st i = Some kv -> nth_error rows i = Some n ->
      (n <= n_clicks (snd kv))%Z) ->
  button_click rows (serialise_clicks (state_json st))
  = Ok (serialise_clicks (state_json (map unflag st))) /\
  update_selected_street (serialise_clicks (state_json (map unflag st)))
  = Ok ["Dundas"].
Proof.
  intros Hnd Hlen Hle. split.
  - rewrite (button_click_state st rows Hnd).
    now rewrite (next_state_no_raise st rows Hlen Hle).
  - rewrite update_selected_street_state by (now rewrite unflag_keys).
    now rewrite filter_flagged_unflag.
Qed.

Lemma report_without_raise_witness :
  NoDup (map fst initial_state) /\
  List.length initial_state <= List.length [1; 0; 0; 0; 0; 0]%Z /\
  button_click [1; 0; 0; 0; 0; 0]%Z (serialise_clicks (state_json initial_state))
  = Ok (serialise_clicks (state_json (map unflag initial_state))) /\
  update_selected_street (serialise_clicks (state_json (map unflag initial_state)))
  = Ok ["Dundas"].
Proof.
  split; [exact STREETS_NoDup |]. split; [cbn; lia |].
  apply (report_without_raise initial_state [1; 0; 0; 0; 0; 0]%Z).
  - exact STREETS_NoDup.
  - cbn; lia.
  - intros i kv n Hi Hn.
    do 6 (destruct i as [| i];
          [cbn in Hi, Hn; injection Hi as <-; injection Hn as <-; cbn; lia |]).
    destruct i; discriminate Hi.
Defined.

Lemma next_click_max (o : click_obj) (n : Z) :
  n_clicks (next_click o n) = Z.max (n_clicks o) n.
Proof.
  unfold next_click. destruct (Z.ltb_spec (n_clicks o) n); cbn; lia.
Qed.

Lemma nth_error_Some_length {A : Type} (l : list A) (i : nat) (x : A) :
  nth_error l i = Some x -> i < List.length l.
Proof. intros H. apply nth_error_Some. congruence. Qed.

(** X3: a report delivered a second time raises nothing: the store
    after the second delivery has the counters of the first and no flag,
    so the derived selection falls back to 'Dundas'. *)
Theorem report_delivered_twice (st : sel_state) (rows : list Z) :
  NoDup (map fst st) ->
  List.length st <= List.length rows ->
  exists st1 : sel_state,
    button_click rows (serialise_clicks (state_json st))
    = Ok (serialise_clicks (state_json st1)) /\
    button_click rows (serialise_clicks (state_json st1))
    = Ok (serialise_clicks (state_json (map unflag st1))) /\
    update_selected_street (serialise_clicks (state_json (map unflag st1)))
    = Ok ["Dundas"].
Proof.
  intros Hnd Hlen. exists (next_state st rows).
  assert (Hnd1 : NoDup (map fst (next_state st rows)))
    by now rewrite next_state_keys.
  split; [now apply button_click_state |]. split.
  - rewrite (button_click_state _ rows Hnd1). do 3 f_equal.
    apply next_state_no_raise; [now rewrite next_state_length |].
    intros i [k o1] n Hi Hn. cbn [snd].
    destruct (nth_error st i) as [[k0 o] |] eqn:E.
    + rewrite (next_state_nth st rows i k0 o E), Hn in Hi.
      injection Hi as <- <-. rewrite next_click_max. lia.
    + apply nth_error_None in E. apply nth_error_Some_length in Hi.
      rewrite next_state_length in Hi. lia.
  - rewrite update_selected_street_state by (now rewrite unflag_keys).
    now rewrite filter_flagged_unflag.
Qed.

Lemma report_delivered_twice_witness :
  NoDup (map fst initial_state) /\
  List.length initial_state <= List.length [1; 1; 0; 0; 0; 0]%Z /\
  exists st1 : sel_state,
    button_click [1; 1; 0; 0; 0; 0]%Z (serialise_clicks (state_json initial_state))
    = Ok (serialise_clicks (state_json st1)) /\
    button_click [1; 1; 0; 0; 0; 0]%Z (serialise_clicks (state_json st1))
    = Ok (serialise_clicks (state_json (map unflag st1))) /\
    update_selected_street (serialise_clicks (state_json (map unflag st1)))
    = Ok ["Dundas"].
Proof.
  split; [exact STREETS_NoDup |]. split; [cbn; lia |].
  apply (report_delivered_twice initial_state [1; 1; 0; 0; 0; 0]%Z).
  - exact STREETS_NoDup.
  - cbn; lia.
Defined.

(** X4: after any sequence of reports every stored counter is the
    largest of its starting value and the values reported for it. *)
Theorem counters_track_maximum (reports : list (list Z)) (st : sel_state) :
  NoDup (map fst st) ->
  exists st' : sel_state,
    run_reports reports (serialise_clicks (state_json st))
    = Ok (serialise_clicks (state_json st')) /\
    forall i street o,
      nth_error st i = Some (street, o) ->
      exists o',
        nth_error st' i = Some (street, o') /\
        n_clicks o' = reported_max i reports (n_clicks o).
Proof.
  intros Hnd. exists (fold_left next_state reports st).
  split; [now apply run_reports_state |].
  clear Hnd. revert st.
  induction reports as [| rows reports IH]; intros st i street o Hi.
  - exists o. split; [exact Hi | reflexivity].
  - cbn [fold_left reported_max].
    pose proof (next_state_nth st rows i street o Hi) as Hn.
    destruct (IH _ _ _ _ Hn) as (o' & Ho' & Hmax).
    exists o'. split; [exact Ho' |]. rewrite Hmax. unfold reported_max.
    destruct (nth_error rows i) as [n |]; [| reflexivity].
    now rewrite next_click_max.
Qed.

Lemma counters_track_maximum_witness :
  NoDup (map fst initial_state) /\
  exists st' : sel_state,
    run_reports [[1; 3; 0]; [0; 2; 5]; [2]]%Z
                (serialise_clicks (state_json initial_state))
    = Ok (serialise_clicks (state_json st')) /\
    forall i street o,
      nth_error initial_state i = Some (street, o) ->
      exists o',
        nth_error st' i = Some (street, o') /\
        n_clicks o'
        = reported_max i [[1; 3; 0]; [0; 2; 5]; [2]]%Z (n_clicks o).
Proof.
  split; [exact STREETS_NoDup |].
  apply (counters_track_maximum [[1; 3; 0]; [0; 2; 5]; [2]]%Z initial_state).
  exact STREETS_NoDup.
Defined.

Lemma flagged_single (st : sel_state) (rows : list Z) (i : nat)
  (street : string) (o : click_obj) (n : Z) :
  List.length st <= List.length rows ->
  nth_error st i = Some (street, o) ->
  nth_error rows i = Some n ->
  (n_clicks o < n)%Z ->
  (forall j kv m,
      j <> i -> nth_error st j = Some kv -> nth_error rows j = Some m ->
      (m <= n_clicks (snd kv))%Z) ->
  map fst (filter flagged (next_state st rows)) = [street].
Proof.
  revert rows i. induction st as [| [k x] st IH]; intros rows i Hlen Hi Hn Hlt Hle.
  - destruct i; discriminate Hi.
  - destruct rows as [| m rows]; [cbn in Hlen; lia |].
    cbn [next_state filter]. unfold flagged at 1. cbn [snd].
    destruct i as [| i].
    + cbn in Hi, Hn. injection Hi as -> ->. injection Hn as ->.
      unfold next_click. destruct (Z.ltb_spec (n_clicks o) n); [| lia].
      cbn [clicked map fst]. f_equal.
      rewrite next_state_no_raise.
      * now rewrite filter_flagged_unflag.
      * cbn in Hlen; lia.
      * intros j kv m Hj Hm. exact (Hle (S j) kv m ltac:(lia) Hj Hm).
    + specialize (Hle 0 (k, x) m ltac:(lia) eq_refl eq_refl) as H0.
      cbn [snd] in H0. unfold next_click.
      destruct (Z.ltb_spec (n_clicks x) m); [lia |]. cbn [clicked].
      apply (IH rows i); [cbn in Hlen; lia | exact Hi | exact Hn | exact Hlt |].
      intros j kv m' Hj Hkv Hm'.
      exact (Hle (S j) kv m' ltac:(lia) Hkv Hm').
Qed.

(** X5: a report that raises the counter of exactly one street makes
    that street the whole derived selection. *)
Theorem single_click_selects (st : sel_state) (rows : list Z) (i : nat)
  (street : string) (o : click_obj) (n : Z) :
  NoDup (map fst st) ->
  List.length st <= List.length rows ->
  nth_error st i = Some (street, o) ->
  nth_error rows i = Some n ->
  (n_clicks o < n)%Z ->
  (forall j kv m,
      j <> i -> nth_error st j = Some kv -> nth_error rows j = Some m ->
      (m <= n_clicks (snd kv))%Z) ->
  (s <- button_click rows (serialise_clicks (state_json st)) ;;
   update_selected_street s) = Ok [street].
Proof.
  intros Hnd Hlen Hi Hn Hlt Hle.
  rewrite (button_click_state st rows Hnd). cbn [bind].
  rewrite update_selected_street_state by (now rewrite next_state_keys).
  now rewrite (flagged_single st rows i street o n Hlen Hi Hn Hlt Hle).
Qed.

Lemma single_click_selects_witness :
  (s <- button_click [1; 1; 0; 0; 0; 0]%Z
                     (serialise_clicks (state_json initial_state)) ;;
   update_selected_street s) = Ok ["Queen"].
Proof.
  apply (single_click_selects initial_state [1; 1; 0; 0; 0; 0]%Z 1
                              "Queen" (mkClick 0 false) 1%Z).
  - exact STREETS_NoDup.
  - cbn; lia.
  - reflexivity.
  - reflexivity.
  - cbn; lia.
  - intros j kv m Hj Hkv Hm.
    do 6 (destruct j as [| j];
          [try congruence;
           cbn in Hkv, Hm; injection Hkv as <-; injection Hm as <-; cbn; lia |]).
    destruct j; discriminate Hkv.
Defined.

(** ** Every decoded value is well formed *)

Lemma od_set_keys_In (k k0 : string) (v : json) (d : list (string * json)) :
  In k0 (map fst (od_set k v d)) <-> k0 = k \/ In k0 (map fst d).
Proof.
  induction d as [| [k' v'] d IH]; cbn [od_set map fst In].
  - intuition auto.
  - destruct (String.eqb_spec k' k) as [-> | Hne]; cbn [map fst In].
    + intuition auto.
    + rewrite IH. intuition auto.
Qed.

Lemma od_set_NoDup (k : string) (v : json) (d : list (string * json)) :
  NoDup (map fst d) -> NoDup (map fst (od_set k v d)).
Proof.
  induction d as [| [k' v'] d IH]; cbn [od_set map fst]; intros H.
  - repeat constructor. intros [].
  - inversion H as [| ? ? Hk Hd]; subst.
    destruct (String.eqb_spec k' k) as [-> | Hne]; cbn [map fst].
    + now constructor.
    + constructor; [| now apply IH].
      rewrite od_set_keys_In. intros [-> | Hin]; [congruence | contradiction].
Qed.

Lemma od_set_values (P : json -> Prop) (k : string) (v : json)
  (d : list (string * json)) :
  P v -> Forall (fun kv => P (snd kv)) d ->
  Forall (fun kv => P (snd kv)) (od_set k v d).
Proof.
  intros Hv. induction 1 as [| [k' v'] d Hx Hd IH]; cbn [od_set].
  - now repeat constructor.
  - destruct (k' =? k)%string; constructor; auto.
Qed.

Lemma OrderedDict_wf (pairs : list (string * json)) :
  Forall (fun kv => wf (snd kv)) pairs -> wf (JObj (OrderedDict pairs)).
Proof.
  intros H. apply wf_obj. unfold OrderedDict.
  assert (G : forall acc,
             NoDup (map fst acc) /\ Forall (fun kv => wf (snd kv)) acc ->
             NoDup (map fst (fold_left (fun d kv => od_set (fst kv) (snd kv) d)
                                       pairs acc)) /\
             Forall (fun kv => wf (snd kv))
                    (fold_left (fun d kv => od_set (fst kv) (snd kv) d)
                               pairs acc)).
  { induction H as [| kv pairs Hkv Hp IH]; intros acc [Hnd Hacc];
      cbn [fold_left]; [now split |].
    apply IH. split; [now apply od_set_NoDup | now apply od_set_values]. }
  apply G. split; constructor.
Qed.

Lemma scan_number_wf (s r : string) (v : json) :
  scan_number s = Ok (v, r) -> wf v.
Proof.
  unfold scan_number.
  destruct (match_integer s) as [[lexeme r'] |].
  - destruct (has_frac r' || has_exp r'); [discriminate |].
    destruct (py_int lexeme); [| discriminate].
    intros [= <- _]. exact I.
  - destruct (_ || _); discriminate.
Qed.

Lemma scan_wf (fuel : nat) :
  (forall s v r, scan_once fuel s = Ok (v, r) -> wf v) /\
  (forall s pairs r,
      object_members fuel s = Ok (pairs, r) ->
      Forall (fun kv => wf (snd kv)) pairs) /\
  (forall s l r, array_elements fuel s = Ok (l, r) -> Forall wf l).
Proof.
  induction fuel as [| fuel (IHv & IHo & IHa)];
    [repeat split; intros; discriminate |].
  split; [| split].
  - intros s v r. cbn [scan_once].
    destruct s as [| c s]; [discriminate |].
    destruct (c =? dq)%char.
    { destruct (scanstring s) as [[str r'] | |]; try discriminate.
      intros [= <- _]. exact I. }
    destruct (c =? "{")%char.
    { destruct (skip_ws s) as [| c1 r1]; [discriminate |].
      destruct (c1 =? "}")%char.
      - intros [= <- _]. now apply OrderedDict_wf.
      - destruct (c1 =? dq)%char; [| discriminate].
        destruct (object_members fuel r1) as [[pairs r'] | |] eqn:E;
          try discriminate.
        intros [= <- _]. apply OrderedDict_wf. exact (IHo _ _ _ E). }
    destruct (c =? "[")%char.
    { destruct (skip_ws s) as [| c1 r1]; [discriminate |].
      destruct (c1 =? "]")%char.
      - intros [= <- _]. exact I.
      - destruct (array_elements fuel (String c1 r1)) as [[l r'] | |] eqn:E;
          try discriminate.
        intros [= <- _]. apply wf_arr. exact (IHa _ _ _ E). }
    destruct (strip_prefix "null" (String c s)); [intros [= <- _]; exact I |].
    destruct (strip_prefix "true" (String c s)); [intros [= <- _]; exact I |].
    destruct (strip_prefix "false" (String c s)); [intros [= <- _]; exact I |].
    apply scan_number_wf.
  - intros s pairs r. cbn [object_members].
    destruct (scanstring s) as [[key s1] | |]; try discriminate. cbn [bind].
    destruct (skip_ws s1) as [| c r0]; [discriminate |].
    destruct (c =? ":")%char; [| discriminate].
    destruct (scan_once fuel (skip_ws r0)) as [[value s2] | |] eqn:E;
      try discriminate. cbn [bind].
    destruct (skip_ws s2) as [| c2 r2]; [discriminate |].
    destruct (c2 =? "}")%char.
    + intros [= <- _]. constructor; [exact (IHv _ _ _ E) | constructor].
    + destruct (c2 =? ",")%char; [| discriminate].
      destruct (skip_ws r2) as [| c3 r3]; [discriminate |].
      destruct (c3 =? dq)%char; [| discriminate].
      destruct (object_members fuel r3) as [[rest r'] | |] eqn:E';
        try discriminate.
      intros [= <- _]. constructor; [exact (IHv _ _ _ E) | exact (IHo _ _ _ E')].
  - intros s l r. cbn [array_elements].
    destruct (scan_once fuel s) as [[value s1] | |] eqn:E; try discriminate.
    cbn [bind].
    destruct (skip_ws s1) as [| c r0]; [discriminate |].
    destruct (c =? "]")%char.
    + intros [= <- _]. constructor; [exact (IHv _ _ _ E) | constructor].
    + destruct (c =? ",")%char; [| discriminate].
      destruct (array_elements fuel (skip_ws r0)) as [[rest r'] | |] eqn:E';
        try discriminate.
      intros [= <- _]. constructor; [exact (IHv _ _ _ E) | exact (IHa _ _ _ E')].
Qed.

Lemma json_loads_wf (s : string) (v : json) : json_loads s = Ok v -> wf v.
Proof.
  unfold json_loads.
  destruct (scan_once (S (String.length s)) (skip_ws s)) as [[obj r] | |] eqn:E;
    try discriminate.
  cbn [bind]. destruct (skip_ws r); [| discriminate].
  intros [= <-]. exact (proj1 (scan_wf _) _ _ _ E).
Qed.

(** ** Further properties of the click store *)

(** X6: whatever text deserialises, serialising the value and
    deserialising again gives the value back; a decoded dict never has
    a key twice. *)
Theorem deserialise_then_round_trip (clicks_json : string) (v : json) :
  deserialise_clicks clicks_json = Ok v ->
  deserialise_clicks (serialise_clicks v) = Ok v /\
  (forall d, v = JObj d -> NoDup (map fst d)).
Proof.
  intros H. apply json_loads_wf in H. split.
  - now apply json_loads_dumps.
  - intros d ->. now apply wf_obj in H.
Qed.

Lemma deserialise_then_round_trip_witness :
  deserialise_clicks (serialise_clicks (JArr [JInt 1; JInt 2; JNull]))
  = Ok (JArr [JInt 1; JInt 2; JNull]) /\
  (forall d, JArr [JInt 1; JInt 2; JNull] = JObj d -> NoDup (map fst d)).
Proof.
  apply (deserialise_then_round_trip " [1 , 2,  null ] "
                                     (JArr [JInt 1; JInt 2; JNull])).
  vm_compute. reflexivity.
Defined.

(** X7: two stores without repeated keys that serialise to the same
    text are the same store. *)
Theorem serialise_clicks_injective (a b : json) :
  wf a -> wf b -> serialise_clicks a = serialise_clicks b -> a = b.
Proof.
  intros Ha Hb E.
  pose proof (json_loads_dumps a Ha) as La.
  pose proof (json_loads_dumps b Hb) as Lb.
  unfold serialise_clicks in E. rewrite E in La. congruence.
Qed.

Lemma serialise_clicks_injective_witness :
  INITIAL_STATE = state_json initial_state.
Proof.
  apply (serialise_clicks_injective INITIAL_STATE (state_json initial_state)).
  - exact (wf_state_json initial_state STREETS_NoDup).
  - exact (wf_state_json initial_state STREETS_NoDup).
  - reflexivity.
Defined.

Lemma click_step_wf (click_obj click_obj' : json) (n : Z) :
  click_step click_obj n = Ok click_obj' -> wf click_obj -> wf click_obj'.
Proof.
  unfold click_step.
  destruct click_obj as [| b | z | s | l | d]; try discriminate.
  cbn [getitem]. destruct (od_get "n_clicks" d) as [stored |]; [| discriminate].
  cbn [bind]. destruct (int_gt n stored) as [[] | |]; try discriminate;
    cbn [bind setitem]; intros [= <-] Hwf; apply wf_obj in Hwf as [Hnd Hv];
    apply wf_obj; split;
    repeat (first [apply od_set_NoDup | apply od_set_values]); auto; exact I.
Qed.

Lemma click_loop_keeps (d d' : list (string * json)) (rows : list Z) :
  click_loop d rows = Ok d' ->
  map fst d' = map fst d /\
  (Forall (fun kv => wf (snd kv)) d -> Forall (fun kv => wf (snd kv)) d').
Proof.
  revert rows d'. induction d as [| [k x] d IH]; intros rows d'.
  - destruct rows; intros [= <-]; auto.
  - destruct rows as [| n rows]; [intros [= <-]; auto |].
    cbn [click_loop].
    destruct (click_step x n) as [x' | |] eqn:Ex; try discriminate. cbn [bind].
    destruct (click_loop d rows) as [rest | |] eqn:Er; try discriminate.
    cbn [bind]. intros [= <-]. destruct (IH _ _ Er) as [Hk Hw].
    cbn [map fst]. split; [now rewrite Hk |].
    intros H. inversion H as [| ? ? Hx Hd]; subst.
    constructor; [exact (click_step_wf _ _ _ Ex Hx) | now apply Hw].
Qed.

(** X8: whatever the stored text, when the reducer succeeds its result
    can be read back, and it holds the streets of the store it was given,
    in the same order. *)
Theorem button_click_output_readable (rows : list Z) (old_clicks out : string) :
  button_click rows old_clicks = Ok out ->
  exists d d' : list (string * json),
    deserialise_clicks old_clicks = Ok (JObj d) /\
    deserialise_clicks out = Ok (JObj d') /\
    map fst d' = map fst d.
Proof.
  unfold button_click.
  destruct (deserialise_clicks old_clicks) as [v | |] eqn:E; try discriminate.
  cbn [bind]. destruct v as [| b | z | s | l | d]; try discriminate.
  cbn [items bind].
  destruct (click_loop d rows) as [d' | |] eqn:El; try discriminate.
  cbn [bind]. intros [= <-].
  destruct (click_loop_keeps _ _ _ El) as [Hk Hw].
  apply json_loads_wf, wf_obj in E as [Hnd Hv].
  exists d, d'. split; [reflexivity |]. split; [| exact Hk].
  change (json_loads (json_dumps (JObj d')) = Ok (JObj d')).
  apply json_loads_dumps, wf_obj. split; [now rewrite Hk | now apply Hw].
Qed.

Lemma button_click_output_readable_witness :
  exists d d' : list (string * json),
    deserialise_clicks (serialise_clicks INITIAL_STATE) = Ok (JObj d) /\
    deserialise_clicks
      (serialise_clicks (state_json (next_state initial_state [0; 1]%Z)))
    = Ok (JObj d') /\
    map fst d' = map fst d.
Proof.
  apply (button_click_output_readable [0; 1]%Z (serialise_clicks INITIAL_STATE)).
  vm_compute. reflexivity.
Defined.

(** X10: when a counter is reported for the first stored object, an
    object that is no dict makes the reducer raise TypeError, a dict
    without ['n_clicks'] makes it raise KeyError, and a dict whose
    ['n_clicks'] is null, a string, a list or a dict makes it raise
    TypeError, since an int is not ordered against these. *)
Theorem button_click_bad_entry (n : Z) (rows : list Z) (old_clicks street : string)
  (x : json) (d : list (string * json)) :
  deserialise_clicks old_clicks = Ok (JObj ((street, x) :: d)) ->
  ((forall inner, x <> JObj inner) ->
   button_click (n :: rows) old_clicks = Raise TypeError) /\
  (forall inner, x = JObj inner ->
     (od_get "n_clicks" inner = None ->
      button_click (n :: rows) old_clicks = Raise KeyError) /\
     (forall stored,
         od_get "n_clicks" inner = Some stored ->
         stored = JNull \/ (exists s, stored = JStr s) \/
         (exists l, stored = JArr l) \/ (exists o, stored = JObj o) ->
         button_click (n :: rows) old_clicks = Raise TypeError)).
Proof.
  intros H. unfold button_click. rewrite H. cbn [bind items click_loop].
  unfold click_step. split.
  - intros Hx. destruct x; try reflexivity. exfalso. now apply (Hx l).
  - intros inner ->. cbn [getitem]. split.
    + intros ->. reflexivity.
    + intros stored -> [-> | [[s ->] | [[l ->] | [o ->]]]]; reflexivity.
Qed.

Lemma button_click_bad_entry_witness :
  button_click [1%Z]
    (serialise_clicks (JObj [("Dundas", JObj [("n_clicks", JStr "0")])]))
  = Raise TypeError.
Proof.
  assert (H : deserialise_clicks
                (serialise_clicks (JObj [("Dundas", JObj [("n_clicks", JStr "0")])]))
              = Ok (JObj [("Dundas", JObj [("n_clicks", JStr "0")])]))
    by (vm_compute; reflexivity).
  apply (proj2 (proj2 (button_click_bad_entry 1%Z [] _ "Dundas" _ [] H)
                      [("n_clicks", JStr "0")] eq_refl)
               (JStr "0")).
  - reflexivity.
  - right. left. now exists "0".
Defined.

Lemma clicked_streets_filter (d : list (string * json)) (l : list string) :
  clicked_streets d = Ok l ->
  l = map fst (filter (fun kv => flag_true (snd kv)) d).
Proof.
  revert l. induction d as [| [k x] d IH]; intros l.
  - intros [= <-]. reflexivity.
  - cbn [clicked_streets filter snd]. unfold flag_true at 1.
    destruct (getitem x "clicked") as [c | |]; try discriminate. cbn [bind].
    destruct (clicked_streets d) as [rest | |]; try discriminate. cbn [bind].
    intros [= <-]. rewrite (IH rest eq_refl).
    now destruct (truth c).
Qed.

Lemma NoDup_map_filter {A : Type} (f : A -> bool) (l : list A)
  (g : A -> string) :
  NoDup (map g l) -> NoDup (map g (filter f l)).
Proof.
  induction l as [| a l IH]; cbn [map filter]; intros H; [constructor |].
  inversion H as [| ? ? Ha Hl]; subst.
  destruct (f a); cbn [map]; [constructor |]; auto.
  intros Hin. apply Ha. apply in_map_iff in Hin as (y & Hy & Hin).
  apply filter_In in Hin as [Hin _]. apply in_map_iff. eauto.
Qed.

(** X11: whatever the stored text, when the derivation succeeds it
    returns the streets whose ['clicked'] entry is true as Python takes
    truth values, in the order of the store and none twice, or
    ['Dundas'] when there is none. *)
Theorem update_selected_street_any_store (state_data : string)
  (street : list string) :
  update_selected_street state_data = Ok street ->
  exists d : list (string * json),
    deserialise_clicks state_data = Ok (JObj d) /\
    street = match map fst (filter (fun kv => flag_true (snd kv)) d) with
             | [] => ["Dundas"]
             | first :: others => first :: others
             end /\
    NoDup street.
Proof.
  unfold update_selected_street.
  destruct (deserialise_clicks state_data) as [v | |] eqn:E; try discriminate.
  cbn [bind]. destruct v as [| b | z | s | l | d]; try discriminate.
  cbn [items bind].
  destruct (clicked_streets d) as [l | |] eqn:El; try discriminate.
  cbn [bind]. intros [= <-].
  apply clicked_streets_filter in El.
  apply json_loads_wf, wf_obj in E as [Hnd _].
  exists d. split; [reflexivity |].
  pose proof (NoDup_map_filter (fun kv => flag_true (snd kv)) d fst Hnd) as Hn.
  rewrite <- El in *. destruct l; split; try reflexivity; try assumption.
  repeat constructor. intros [].
Qed.

Lemma update_selected_street_any_store_witness :
  exists d : list (string * json),
    deserialise_clicks
      (serialise_clicks
         (JObj [("Queen", JObj [("clicked", JInt 7)]);
                ("Front", JObj [("clicked", JStr "")])]))
    = Ok (JObj d) /\
    ["Queen"] = match map fst (filter (fun kv => flag_true (snd kv)) d) with
                | [] => ["Dundas"]
                | first :: others => first :: others
                end /\
    NoDup ["Queen"].
Proof.
  apply (update_selected_street_any_store
           (serialise_clicks
              (JObj [("Queen", JObj [("clicked", JInt 7)]);
                     ("Front", JObj [("clicked", JStr "")])]))).
  vm_compute. reflexivity.
Defined.

(** ** Further properties of the row and chart callbacks *)

(** X12: when the selected-street element holds a text, as the layout
    sets it at start, the row callback compares the street with the
    first character of the text, so no street of the fixed set is given
    the class "selected". *)
Theorem row_class_on_text (streetname s : string) :
  In streetname STREETS ->
  create_row_click_function streetname (Text s) = "notselected".
Proof.
  intros H. unfold create_row_click_function.
  destruct s as [| c s]; [reflexivity |]. cbn [first_of].
  repeat (destruct H as [<- | H];
          [cbn [String.eqb]; destruct (Ascii.eqb _ c); reflexivity |]).
  destruct H.
Qed.

Lemma row_class_on_text_witness :
  create_row_click_function "Dundas" (Text "Dundas") = "notselected".
Proof.
  apply (row_class_on_text "Dundas" "Dundas"). cbn. auto.
Defined.

(** X13: the chart query raises KeyError for a direction other than
    'EB' and 'WB', whatever the data; otherwise it returns a figure
    titled with the direction's label whose one bar series has as [x]
    the dates and as [y] the travel times of the current rows
    [filter_graph_data] returns, in their order: the charted points are
    exactly the measurements of the current frame with the street,
    direction, day type and period asked for; the baseline frame never
    reaches the figure. *)
Theorem generate_graph_figure
  (DATA BASELINE : DataFrame) (street direction day_type period : string) :
  (lookup direction DIRECTIONS = None ->
   generate_graph DATA BASELINE street direction day_type period
   = Raise KeyError) /\
  (forall title,
      lookup direction DIRECTIONS = Some title ->
      exists x y,
        generate_graph DATA BASELINE street direction day_type period
        = Ok (mkFigure title "Date" "Travel Time (min)" [mkBar x y]) /\
        x = map m_date
                (fst (filter_graph_data DATA BASELINE street direction
                                        day_type period)) /\
        y = map m_tt
                (fst (filter_graph_data DATA BASELINE street direction
                                        day_type period)) /\
        (forall i date,
            nth_error x i = Some date ->
            exists m, In m DATA /\ has_key street direction day_type period m /\
                      m_date m = date /\ nth_error y i = Some (m_tt m)) /\
        (forall m,
            In m DATA -> has_key street direction day_type period m ->
            exists i, nth_error x i = Some (m_date m) /\
                      nth_error y i = Some (m_tt m))) /\
  (forall BASELINE',
      generate_graph DATA BASELINE' street direction day_type period
      = generate_graph DATA BASELINE street direction day_type period) /\
  (lookup direction DIRECTIONS = None <-> direction <> "EB" /\ direction <> "WB").
Proof.
  unfold generate_graph, filter_graph_data. cbn [fst].
  split; [| split; [| split; [| split]]].
  - intros ->. reflexivity.
  - intros title ->. eexists _, _. split; [reflexivity |].
    split; [reflexivity |]. split; [reflexivity |]. split.
    + intros i date Hi. rewrite nth_error_map in Hi.
      destruct (nth_error (filter (graph_mask street direction day_type period)
                                  DATA) i) as [m |] eqn:E;
        [| discriminate Hi].
      injection Hi as <-. exists m.
      pose proof (nth_error_In _ _ E) as Hin.
      apply filter_In in Hin as [Hin Hk]. apply graph_mask_key in Hk.
      repeat split; try assumption; try apply Hk.
      rewrite nth_error_map, E. reflexivity.
    + intros m Hin Hk.
      assert (Hm : In m (filter (graph_mask street direction day_type period)
                                DATA))
        by (apply filter_In; split; [exact Hin | now apply graph_mask_key]).
      apply In_nth_error in Hm as [i Hi]. exists i.
      now rewrite !nth_error_map, Hi.
  - intros BASELINE'. reflexivity.
  - cbn [lookup DIRECTIONS]. intros H.
    destruct (String.eqb_spec "EB" direction); [discriminate |].
    destruct (String.eqb_spec "WB" direction); [discriminate |].
    split; congruence.
  - intros [H1 H2]. cbn [lookup DIRECTIONS].
    destruct (String.eqb_spec "EB" direction); [congruence |].
    destruct (String.eqb_spec "WB" direction); [congruence | reflexivity].
Qed.

(** X14: on every value the selected-street callback derives, the two
    chart callbacks succeed; they chart the first street of the value
    for the AM peak of weekdays, eastbound and westbound, and ignore any
    further street of the value. *)
Theorem chart_callbacks_on_selection
  (DATA BASELINE : DataFrame) (state_data : string) (street : list string) :
  update_selected_street state_data = Ok street ->
  exists first others,
    street = first :: others /\
    update_eb_graph DATA BASELINE (Items street)
    = generate_graph DATA BASELINE first "EB" "Weekday" "AMPK" /\
    update_wb_graph DATA BASELINE (Items street)
    = generate_graph DATA BASELINE first "WB" "Weekday" "AMPK" /\
    (exists eb wb,
        update_eb_graph DATA BASELINE (Items street) = Ok eb /\
        layout_title eb = "Eastbound" /\
        update_wb_graph DATA BASELINE (Items street) = Ok wb /\
        layout_title wb = "Westbound") /\
    (forall others',
        update_eb_graph DATA BASELINE (Items (first :: others'))
        = update_eb_graph DATA BASELINE (Items street) /\
        update_wb_graph DATA BASELINE (Items (first :: others'))
        = update_wb_graph DATA BASELINE (Items street)).
Proof.
  intros H. apply update_selected_street_nonempty in H.
  destruct street as [| first others]; [congruence |].
  exists first, others. split; [reflexivity |].
  split; [reflexivity |]. split; [reflexivity |]. split.
  - eexists _, _. repeat split.
  - intros others'. split; reflexivity.
Qed.

Lemma chart_callbacks_on_selection_witness :
  exists first others,
    ["Dundas"] = first :: others /\
    update_eb_graph queen_only queen_only (Items ["Dundas"])
    = generate_graph queen_only queen_only first "EB" "Weekday" "AMPK" /\
    update_wb_graph queen_only queen_only (Items ["Dundas"])
    = generate_graph queen_only queen_only first "WB" "Weekday" "AMPK" /\
    (exists eb wb,
        update_eb_graph queen_only queen_only (Items ["Dundas"]) = Ok eb /\
        layout_title eb = "Eastbound" /\
        update_wb_graph queen_only queen_only (Items ["Dundas"]) = Ok wb /\
        layout_title wb = "Westbound") /\
    (forall others',
        update_eb_graph queen_only queen_only (Items (first :: others'))
        = update_eb_graph queen_only queen_only (Items ["Dundas"]) /\
        update_wb_graph queen_only queen_only (Items (first :: others'))
        = update_wb_graph queen_only queen_only (Items ["Dundas"])).
Proof.
  apply (chart_callbacks_on_selection queen_only queen_only
           (serialise_clicks INITIAL_STATE)).
  vm_compute. reflexivity.
Defined.

(** ** The table view *)

Lemma row_attr_map (name : string) (columns : list string)
  (f : string -> option float) :
  In name columns -> row_attr name columns (map f columns) = Ok (f name).
Proof.
  induction columns as [| c columns IH]; [intros [] |].
  intros H. cbn [map row_attr].
  destruct (String.eqb_spec c name) as [-> | Hne]; [reflexivity |].
  destruct H as [-> | H]; [congruence | now apply IH].
Qed.

Lemma row_attr_cases (name : string) (columns : list string)
  (cells : list (option float)) :
  (exists x, row_attr name columns cells = Ok x)
  \/ row_attr name columns cells = Raise AttributeError.
Proof.
  revert cells. induction columns as [| c columns IH]; intros cells;
    [now right |].
  destruct cells as [| x cells]; [now right |]. cbn [row_attr].
  destruct (c =? name)%string; [left; eauto | apply IH].
Qed.

Lemma row_attr_missing (name : string) (columns : list string)
  (cells : list (option float)) :
  ~ In name columns -> row_attr name columns cells = Raise AttributeError.
Proof.
  revert cells. induction columns as [| c columns IH]; intros cells H;
    [reflexivity |].
  destruct cells as [| x cells]; [reflexivity |]. cbn [row_attr].
  destruct (String.eqb_spec c name) as [-> | Hne].
  - exfalso. apply H. now left.
  - apply IH. intros Hin. apply H. now right.
Qed.

Lemma aggregated_shaped (agg : list float -> float) (df : list Obs) (p : Pivoted) :
  aggregated agg df p -> shaped (pv_columns p) (pv_rows p).
Proof.
  intros (_ & _ & others & _ & _ & Hrows). unfold shaped. rewrite Hrows.
  apply Forall_app. split; apply Forall_forall; intros r Hr;
    apply in_map_iff in Hr as (c & <- & _); cbn [pr_cells]; eauto.
Qed.

Lemma generate_row_state (df_columns baseline_columns : list string)
  (df_row baseline_row : PivotRow) (o : click_obj)
  (baseline_EB df_EB baseline_WB df_WB : option float) :
  row_attr "EB" baseline_columns (pr_cells baseline_row) = Ok baseline_EB ->
  row_attr "EB" df_columns (pr_cells df_row) = Ok df_EB ->
  row_attr "WB" baseline_columns (pr_cells baseline_row) = Ok baseline_WB ->
  row_attr "WB" df_columns (pr_cells df_row) = Ok df_WB ->
  generate_row df_columns df_row baseline_columns baseline_row (click_json o)
  = Ok (view_row df_row o baseline_EB df_EB baseline_WB df_WB).
Proof.
  intros H1 H2 H3 H4. unfold generate_row. rewrite H1, H2, H3, H4.
  reflexivity.
Qed.

Lemma generate_rows_state (df_columns baseline_columns : list string)
  (df_rows baseline_rows : list PivotRow) (st : sel_state) :
  In "EB" df_columns -> In "WB" df_columns ->
  In "EB" baseline_columns -> In "WB" baseline_columns ->
  shaped df_columns df_rows -> shaped baseline_columns baseline_rows ->
  exists rows,
    generate_rows df_columns df_rows baseline_columns baseline_rows
                  (map (fun kv => (fst kv, click_json (snd kv))) st) = Ok rows /\
    List.length rows
    = Nat.min (Nat.min (List.length df_rows) (List.length baseline_rows))
              (List.length st) /\
    map tr_id rows
    = map (fun r => Some (pr_street r)) (firstn (List.length rows) df_rows) /\
    map tr_className rows
    = map (fun kv => Some (generate_row_class (clicked (snd kv))))
          (firstn (List.length rows) st) /\
    forall i df_row baseline_row kv,
      nth_error df_rows i = Some df_row ->
      nth_error baseline_rows i = Some baseline_row ->
      nth_error st i = Some kv ->
      exists baseline_EB df_EB baseline_WB df_WB,
        row_attr "EB" baseline_columns (pr_cells baseline_row) = Ok baseline_EB /\
        row_attr "EB" df_columns (pr_cells df_row) = Ok df_EB /\
        row_attr "WB" baseline_columns (pr_cells baseline_row) = Ok baseline_WB /\
        row_attr "WB" df_columns (pr_cells df_row) = Ok df_WB /\
        nth_error rows i
        = Some (view_row df_row (snd kv) baseline_EB df_EB baseline_WB df_WB).
Proof.
  intros Ha1 Ha2 Hb1 Hb2 Hsa. revert baseline_rows st.
  induction Hsa as [| a df_rows (fa & Hfa) Hsa IH]; intros baseline_rows st Hsb.
  - exists []. repeat (split; [reflexivity |]).
    intros [| i]; discriminate.
  - destruct Hsb as [| b baseline_rows (fb & Hfb) Hsb].
    + exists []. repeat (split; [reflexivity |]).
      intros [| i] ? ? ? _ H; discriminate H.
    + destruct st as [| [k o] st].
      * exists []. cbn [map generate_rows]. repeat (split; [reflexivity |]).
        intros [| i] ? ? ? _ _ H; discriminate H.
      * destruct (IH baseline_rows st Hsb) as (rows & Hr & Hlen & Hid & Hcl & Hnth).
        exists (view_row a o (fb "EB") (fa "EB") (fb "WB") (fa "WB") :: rows).
        cbn [map generate_rows fst snd].
        rewrite (generate_row_state df_columns baseline_columns a b o
                   (fb "EB") (fa "EB") (fb "WB") (fa "WB"));
          try (rewrite ?Hfa, ?Hfb; now apply row_attr_map).
        cbn [bind]. rewrite Hr. cbn [bind].
        split; [reflexivity |].
        split; [cbn [List.length]; rewrite Hlen, <- !Nat.succ_min_distr; reflexivity |].
        split; [cbn [List.length firstn map view_row tr_id]; now rewrite Hid |].
        split; [cbn [List.length firstn map view_row tr_className snd];
                now rewrite Hcl |].
        intros [| i] df_row baseline_row kv Hi Hj Hk.
        -- cbn in Hi, Hj, Hk. injection Hi as <-. injection Hj as <-.
           injection Hk as <-. cbn [snd nth_error].
           exists (fb "EB"), (fa "EB"), (fb "WB"), (fa "WB").
           repeat split; try (rewrite ?Hfa, ?Hfb; now apply row_attr_map).
        -- cbn [nth_error] in *. now apply Hnth.
Qed.

Section TableViewFacts.

Variables DATA BASELINE : DataFrame.
Variables period day_type : string.
Variables current baseline : Pivoted.

(** [filtered_data, baseline = filter_table_data(period, day_type)]. *)
Hypothesis frames :
  filter_table_data DATA BASELINE period day_type = (current, baseline).

Lemma current_aggregated :
  aggregated twice (matching period day_type DATA) current.
Proof.
  unfold filter_table_data in frames. injection frames as <- _.
  apply (aggregated_transfer _ mean _
           (groupby_mean (matching period day_type DATA))).
  - intros s d. apply table_cell_groupby_mean.
  - apply pivot_order_aggregated.
Qed.

Lemma baseline_aggregated :
  aggregated mean (matching period day_type BASELINE) baseline.
Proof.
  unfold filter_table_data in frames. injection frames as _ <-.
  apply pivot_order_aggregated.
Qed.

Lemma generate_table_frames (state_data_dict : json) :
  generate_table DATA BASELINE state_data_dict period day_type
  = (states <- items state_data_dict ;;
     rows <- generate_rows (pv_columns current) (pv_rows current)
                           (pv_columns baseline) (pv_rows baseline) states ;;
     Ok (mkTable (table_header ++ rows)%list "data_table")).
Proof. unfold generate_table. now rewrite frames. Qed.

Lemma view_columns :
  has_direction twice "EB" (matching period day_type DATA) = true ->
  has_direction twice "WB" (matching period day_type DATA) = true ->
  has_direction mean "EB" (matching period day_type BASELINE) = true ->
  has_direction mean "WB" (matching period day_type BASELINE) = true ->
  (In "EB" (pv_columns current) /\ In "WB" (pv_columns current)) /\
  (In "EB" (pv_columns baseline) /\ In "WB" (pv_columns baseline)).
Proof.
  intros Ha1 Ha2 Hb1 Hb2.
  pose proof current_aggregated as Hc. pose proof baseline_aggregated as Hb.
  repeat split;
    first [now apply (proj1 (proj2 Hc)) | now apply (proj1 (proj2 Hb))].
Qed.

(** X15: when each frame has, for the period and day type, an eastbound
    and a westbound group whose mean is not NaN, the view is built:
    under the two header rows it has as many rows as the shortest of the
    current frame, the baseline frame and the store; the row at
    position [i] takes its label, its id and its four numbers from the
    rows at position [i] of the two frames, and its class and click
    counter from the entry at position [i] of the store, whatever the
    street names are. *)
Theorem generate_table_by_position (st : sel_state) :
  has_direction twice "EB" (matching period day_type DATA) = true ->
  has_direction twice "WB" (matching period day_type DATA) = true ->
  has_direction mean "EB" (matching period day_type BASELINE) = true ->
  has_direction mean "WB" (matching period day_type BASELINE) = true ->
  exists t : Table,
    generate_table DATA BASELINE (state_json st) period day_type = Ok t /\
    table_id t = "data_table" /\
    firstn 2 (table_rows t) = table_header /\
    List.length (table_rows t)
    = 2 + Nat.min (Nat.min (List.length (pv_rows current))
                           (List.length (pv_rows baseline)))
                  (List.length st) /\
    forall i df_row baseline_row kv,
      nth_error (pv_rows current) i = Some df_row ->
      nth_error (pv_rows baseline) i = Some baseline_row ->
      nth_error st i = Some kv ->
      exists baseline_EB df_EB baseline_WB df_WB,
        row_attr "EB" (pv_columns baseline) (pr_cells baseline_row)
        = Ok baseline_EB /\
        row_attr "EB" (pv_columns current) (pr_cells df_row) = Ok df_EB /\
        row_attr "WB" (pv_columns baseline) (pr_cells baseline_row)
        = Ok baseline_WB /\
        row_attr "WB" (pv_columns current) (pr_cells df_row) = Ok df_WB /\
        nth_error (table_rows t) (2 + i)
        = Some (view_row df_row (snd kv) baseline_EB df_EB baseline_WB df_WB).
Proof.
  intros Ha1 Ha2 Hb1 Hb2.
  destruct (view_columns Ha1 Ha2 Hb1 Hb2) as [[Hc1 Hc2] [Hd1 Hd2]].
  destruct (generate_rows_state (pv_columns current) (pv_columns baseline)
              (pv_rows current) (pv_rows baseline) st Hc1 Hc2 Hd1 Hd2
              (aggregated_shaped _ _ _ current_aggregated)
              (aggregated_shaped _ _ _ baseline_aggregated))
    as (rows & Hr & Hlen & _ & _ & Hnth).
  exists (mkTable (table_header ++ rows)%list "data_table").
  rewrite generate_table_frames. cbn [state_json items bind].
  rewrite Hr. cbn [bind table_rows table_id].
  split; [reflexivity |]. split; [reflexivity |]. split; [reflexivity |].
  split; [cbn [table_header List.app List.length]; now rewrite Hlen |].
  exact Hnth.
Qed.

Lemma frame_rows_nonempty (agg : list float -> float) (df : list Obs)
  (p : Pivoted) :
  aggregated agg df p ->
  (exists s, has_street agg s df = true) ->
  pv_rows p <> [].
Proof.
  intros (_ & _ & others & _ & Hothers & Hrows) (s & Hs).
  rewrite Hrows. intros E. apply app_eq_nil in E as [E1 E2].
  apply map_eq_nil in E1, E2.
  destruct (in_dec string_dec s STREETS) as [Hin | Hin].
  - assert (H : In s (filter (fun c => has_street agg c df) STREETS))
      by (apply filter_In; now split).
    rewrite E1 in H. exact H.
  - assert (H : In s others) by (apply Hothers; now split).
    rewrite E2 in H. exact H.
Qed.

Lemma generate_row_missing (df_columns baseline_columns : list string)
  (df_row baseline_row : PivotRow) (row_state : json) (name : string) :
  name = "EB" \/ name = "WB" ->
  ~ In name df_columns \/ ~ In name baseline_columns ->
  generate_row df_columns df_row baseline_columns baseline_row row_state
  = Raise AttributeError.
Proof.
  intros Hname Hmiss. unfold generate_row.
  destruct (row_attr_cases "EB" baseline_columns (pr_cells baseline_row))
    as [[x1 H1] | H1]; rewrite H1; [| reflexivity]. cbn [bind].
  destruct (row_attr_cases "EB" df_columns (pr_cells df_row))
    as [[x2 H2] | H2]; rewrite H2; [| reflexivity]. cbn [bind].
  destruct (row_attr_cases "WB" baseline_columns (pr_cells baseline_row))
    as [[x3 H3] | H3]; rewrite H3; [| reflexivity]. cbn [bind].
  destruct (row_attr_cases "WB" df_columns (pr_cells df_row))
    as [[x4 H4] | H4]; rewrite H4; [| reflexivity]. cbn [bind].
  exfalso.
  destruct Hname as [-> | ->]; destruct Hmiss as [Hm | Hm];
    match goal with
    | H : row_attr ?n ?c ?x = Ok _, Hm : ~ In ?n ?c |- _ =>
        rewrite (row_attr_missing n c x Hm) in H; discriminate H
    end.
Qed.

(** X16: when each frame has, for the period and day type, a group
    whose mean is not NaN, and the store is not empty, but one of the
    frames has no such group of direction 'EB' or none of direction
    'WB', building the view raises AttributeError. *)
Theorem generate_table_missing_direction (st : sel_state) (name : string) :
  (exists s, has_street twice s (matching period day_type DATA) = true) ->
  (exists s, has_street mean s (matching period day_type BASELINE) = true) ->
  st <> [] ->
  name = "EB" \/ name = "WB" ->
  has_direction twice name (matching period day_type DATA) = false
  \/ has_direction mean name (matching period day_type BASELINE) = false ->
  generate_table DATA BASELINE (state_json st) period day_type
  = Raise AttributeError.
Proof.
  intros Hd Hb Hst Hname Hmiss.
  pose proof current_aggregated as Hca. pose proof baseline_aggregated as Hba.
  pose proof (frame_rows_nonempty _ _ current Hca Hd) as Hra.
  pose proof (frame_rows_nonempty _ _ baseline Hba Hb) as Hrb.
  rewrite generate_table_frames. cbn [state_json items bind].
  destruct (pv_rows current) as [| a ra]; [congruence |].
  destruct (pv_rows baseline) as [| b rb]; [congruence |].
  destruct st as [| [k o] st]; [congruence |].
  cbn [map generate_rows fst snd].
  rewrite (generate_row_missing _ _ a b (click_json o) name Hname);
    [reflexivity |].
  destruct Hmiss as [H | H]; [left | right]; intros Hin;
    [apply (proj1 (proj2 Hca)) in Hin | apply (proj1 (proj2 Hba)) in Hin];
    congruence.
Qed.

Lemma all_streets_rows (agg : list float -> float) (df : list Obs) (p : Pivoted) :
  aggregated agg df p ->
  forallb (fun c => has_street agg c df) STREETS = true ->
  map pr_street (firstn (List.length STREETS) (pv_rows p)) = map Some STREETS /\
  List.length STREETS <= List.length (pv_rows p).
Proof.
  intros (_ & _ & others & _ & _ & Hrows) Hall.
  assert (E : filter (fun c => has_street agg c df) STREETS = STREETS)
    by now apply forallb_filter_id.
  rewrite Hrows, E. split.
  - rewrite <- (List.length_map
                  (fun c => mkPivotRow (Some c)
                     (map (fun d => table_cell agg c d df) (pv_columns p)))
                  STREETS) at 1.
    rewrite firstn_app, Nat.sub_diag, firstn_all. cbn [firstn].
    rewrite List.app_nil_r, map_map. reflexivity.
  - rewrite List.length_app, List.length_map. lia.
Qed.

(** X17: when each frame has, for the period and day type, an eastbound
    and a westbound group whose mean is not NaN and such a group for
    every street of the fixed set, and the store has one entry per
    street, the view has exactly one row per street of the fixed set,
    in the fixed order, each with the class of the store entry at its
    position; rows of other streets do not reach it. *)
Theorem generate_table_six_rows (st : sel_state) :
  has_direction twice "EB" (matching period day_type DATA) = true ->
  has_direction twice "WB" (matching period day_type DATA) = true ->
  has_direction mean "EB" (matching period day_type BASELINE) = true ->
  has_direction mean "WB" (matching period day_type BASELINE) = true ->
  forallb (fun c => has_street twice c (matching period day_type DATA)) STREETS
  = true ->
  forallb (fun c => has_street mean c (matching period day_type BASELINE)) STREETS
  = true ->
  List.length st = List.length STREETS ->
  exists t : Table,
    generate_table DATA BASELINE (state_json st) period day_type = Ok t /\
    map tr_id (skipn 2 (table_rows t)) = map (fun c => Some (Some c)) STREETS /\
    map tr_className (skipn 2 (table_rows t))
    = map (fun kv => Some (generate_row_class (clicked (snd kv)))) st.
Proof.
  intros Ha1 Ha2 Hb1 Hb2 Hsa Hsb Hst.
  destruct (view_columns Ha1 Ha2 Hb1 Hb2) as [[Hc1 Hc2] [Hd1 Hd2]].
  destruct (all_streets_rows _ _ current current_aggregated Hsa)
    as [Hida Hla].
  destruct (all_streets_rows _ _ baseline baseline_aggregated Hsb)
    as [_ Hlb].
  destruct (generate_rows_state (pv_columns current) (pv_columns baseline)
              (pv_rows current) (pv_rows baseline) st Hc1 Hc2 Hd1 Hd2
              (aggregated_shaped _ _ _ current_aggregated)
              (aggregated_shaped _ _ _ baseline_aggregated))
    as (rows & Hr & Hlen & Hid & Hcl & _).
  assert (Hn : List.length rows = List.length STREETS) by lia.
  exists (mkTable (table_header ++ rows)%list "data_table").
  rewrite generate_table_frames. cbn [state_json items bind].
  rewrite Hr. cbn [bind table_rows table_header List.app skipn].
  split; [reflexivity |]. split.
  - rewrite Hid, Hn, <- (map_map pr_street Some), Hida, map_map. reflexivity.
  - rewrite Hcl, Hn, <- Hst, firstn_all. reflexivity.
Qed.

Lemma aggregated_labels (agg : list float -> float) (df : list Obs)
  (p : Pivoted) :
  aggregated agg df p ->
  exists k,
    map pr_street (pv_rows p)
    = (map Some (filter (fun c => has_street agg c df) STREETS)
       ++ repeat None k)%list /\
    (k = 0 <-> forall s, has_street agg s df = true -> In s STREETS).
Proof.
  intros (_ & _ & others & _ & Hothers & Hrows).
  exists (List.length others). split.
  - rewrite Hrows, map_app, !map_map. cbn [pr_street]. f_equal.
    clear. induction others as [| s others IH]; [reflexivity |].
    cbn. now rewrite IH.
  - split.
    + intros Hk s Hs. apply length_zero_iff_nil in Hk. subst others.
      destruct (in_dec string_dec s STREETS) as [Hin | Hin]; [exact Hin |].
      exfalso. apply (proj2 (Hothers s)). now split.
    + intros Hall. destruct others as [| s others]; [reflexivity |].
      exfalso. destruct (proj1 (Hothers s) ltac:(now left)) as [Hs Hin].
      now apply Hin, Hall.
Qed.

(** X18: in each frame of the table the labelled rows are the streets
    of the fixed set that have, for the period and day type, a group
    whose mean is not NaN, in the fixed order, and they come first; the
    rows after them have no label, and there is none exactly when every
    street with such a group is of the fixed set. *)
Theorem filter_table_data_labels :
  (exists k,
      map pr_street (pv_rows current)
      = (map Some (filter (fun c => has_street twice c
                                      (matching period day_type DATA))
                          STREETS)
         ++ repeat None k)%list /\
      (k = 0 <-> forall s, has_street twice s (matching period day_type DATA)
                           = true -> In s STREETS)) /\
  (exists k,
      map pr_street (pv_rows baseline)
      = (map Some (filter (fun c => has_street mean c
                                      (matching period day_type BASELINE))
                          STREETS)
         ++ repeat None k)%list /\
      (k = 0 <-> forall s, has_street mean s (matching period day_type BASELINE)
                           = true -> In s STREETS)).
Proof.
  split.
  - exact (aggregated_labels _ _ _ current_aggregated).
  - exact (aggregated_labels _ _ _ baseline_aggregated).
Qed.

End TableViewFacts.

Lemma generate_table_by_position_witness :
  exists t : Table,
    generate_table two_streets two_streets (state_json initial_state)
                   "AMPK" "Weekday" = Ok t /\
    table_id t = "data_table" /\
    firstn 2 (table_rows t) = table_header /\
    List.length (table_rows t) = 4.
Proof.
  destruct (generate_table_by_position
              two_streets two_streets "AMPK" "Weekday"
              _ _ eq_refl initial_state eq_refl eq_refl eq_refl eq_refl)
    as (t & Ht & Hid & Hhead & Hlen & _).
  exists t. split; [exact Ht |]. split; [exact Hid |]. split; [exact Hhead |].
  rewrite Hlen. reflexivity.
Defined.

Lemma generate_table_missing_direction_witness :
  generate_table queen_only two_streets (state_json initial_state)
                 "AMPK" "Weekday"
  = Raise AttributeError.
Proof.
  apply (generate_table_missing_direction
           queen_only two_streets "AMPK" "Weekday"
           _ _ eq_refl initial_state "WB").
  - now exists "Queen".
  - now exists "Queen".
  - discriminate.
  - now right.
  - left. reflexivity.
Defined.

Lemma generate_table_six_rows_witness :
  exists t : Table,
    generate_table six_streets six_streets (state_json initial_state)
                   "AMPK" "Weekday" = Ok t /\
    map tr_id (skipn 2 (table_rows t)) = map (fun c => Some (Some c)) STREETS /\
    map tr_className (skipn 2 (table_rows t))
    = map (fun kv => Some (generate_row_class (clicked (snd kv)))) initial_state.
Proof.
  apply (generate_table_six_rows
           six_streets six_streets "AMPK" "Weekday"
           _ _ eq_refl initial_state); reflexivity.
Defined.

Lemma filter_table_data_labels_witness :
  exists k,
    map pr_street
        (pv_rows (fst (filter_table_data two_streets two_streets
                                         "AMPK" "Weekday")))
    = (map Some (filter (fun c => has_street twice c
                                    (matching "AMPK" "Weekday" two_streets))
                        STREETS)
       ++ repeat None k)%list /\
    (k = 0 <-> forall s, has_street twice s (matching "AMPK" "Weekday" two_streets)
                         = true -> In s STREETS).
Proof.
  exact (proj1 (filter_table_data_labels
                  two_streets two_streets "AMPK" "Weekday" _ _ eq_refl)).
Defined.

(** ** The stored text *)

Lemma all_printable_app (a b : string) :
  all_printable (a ++ b) = all_printable a && all_printable b.
Proof.
  induction a as [| c a IH]; [reflexivity |].
  cbn [append all_printable]. now rewrite IH, andb_assoc.
Qed.

Lemma encode_char_printable (c : ascii) : all_printable (encode_char c) = true.
Proof. destruct c as [[] [] [] [] [] [] [] []]; reflexivity. Qed.

Lemma encode_basestring_printable (s : string) :
  all_printable (encode_basestring_ascii s) = true.
Proof.
  unfold encode_basestring_ascii. cbn [all_printable].
  rewrite all_printable_app. cbn.
  rewrite andb_true_r.
  induction s as [| c s IH]; [reflexivity |].
  cbn [encode_chars]. now rewrite all_printable_app, encode_char_printable.
Qed.

Lemma string_of_uint_printable (d : uint) :
  all_printable (NilEmpty.string_of_uint d) = true.
Proof. induction d; cbn [NilEmpty.string_of_uint all_printable]; auto. Qed.

Lemma repr_int_printable (z : Z) : all_printable (repr_int z) = true.
Proof.
  unfold repr_int.
  destruct z as [| p | p]; cbn [Z.to_int NilZero.string_of_int]; [reflexivity | |];
    unfold NilZero.string_of_uint;
    destruct (Pos.to_uint p) eqn:E; try reflexivity;
    cbn [all_printable]; rewrite <- ?E; cbn;
    rewrite ?E; try apply (string_of_uint_printable (Pos.to_uint p));
    cbn [NilEmpty.string_of_uint all_printable];
    now rewrite string_of_uint_printable.
Qed.

Lemma concat_printable (l : list string) :
  Forall (fun s => all_printable s = true) l ->
  all_printable (String.concat ", " l) = true.
Proof.
  induction 1 as [| s l Hs Hl IH]; [reflexivity |].
  cbn [String.concat]. destruct l as [| s' l]; [exact Hs |].
  rewrite !all_printable_app, Hs, IH. reflexivity.
Qed.

(** X19: the text [serialise_clicks] returns holds only characters from
    space to tilde, whatever the keys and strings of the value. *)
Theorem serialise_clicks_printable (clicks_dict : json) :
  all_printable (serialise_clicks clicks_dict) = true.
Proof.
  unfold serialise_clicks.
  induction clicks_dict as [| b | z | s | l IH | d IH] using json_nested_ind;
    cbn [json_dumps].
  - reflexivity.
  - now destruct b.
  - apply repr_int_printable.
  - apply encode_basestring_printable.
  - rewrite !all_printable_app, concat_printable; [reflexivity |].
    apply Forall_forall. intros s Hs. apply in_map_iff in Hs as (v & <- & Hv).
    rewrite Forall_forall in IH. now apply IH.
  - rewrite !all_printable_app, concat_printable; [reflexivity |].
    apply Forall_forall. intros s Hs. apply in_map_iff in Hs as (kv & <- & Hkv).
    rewrite !all_printable_app, encode_basestring_printable.
    rewrite Forall_forall in IH. now rewrite (IH kv Hkv).
Qed.

(** ** Repeated keys *)

Lemma od_get_od_set (k k0 : string) (v0 : json) (d : list (string * json)) :
  od_get k (od_set k0 v0 d)
  = if (k0 =? k)%string then Some v0 else od_get k d.
Proof.
  induction d as [| [k' v'] d IH]; cbn [od_set od_get].
  - reflexivity.
  - destruct (String.eqb_spec k' k0) as [-> | Hne]; cbn [od_get].
    + now destruct (k0 =? k)%string.
    + rewrite IH. destruct (String.eqb_spec k' k) as [-> | Hne'];
        [| reflexivity].
      destruct (String.eqb_spec k0 k); [congruence | reflexivity].
Qed.

Lemma OrderedDict_snoc (d : list (string * json)) (k : string) (v : json) :
  OrderedDict (d ++ [(k, v)])%list = od_set k v (OrderedDict d).
Proof. unfold OrderedDict. now rewrite fold_left_app. Qed.

Lemma OrderedDict_get (d : list (string * json)) (k : string) :
  od_get k (OrderedDict d) = od_get k (List.rev d).
Proof.
  induction d as [| [k0 v0] d IH] using rev_ind; [reflexivity |].
  rewrite OrderedDict_snoc, od_get_od_set, rev_unit. cbn [od_get].
  now rewrite IH.
Qed.

Lemma scan_once_dumps_dict (d : list (string * json)) :
  Forall (fun kv => wf (snd kv)) d ->
  forall fuel rest,
    String.length (json_dumps (JObj d)) < fuel -> value_end rest = true ->
    scan_once fuel (json_dumps (JObj d) ++ rest)
    = Ok (JObj (OrderedDict d), rest).
Proof.
  intros Hwf fuel rest Hfuel Hend.
  destruct fuel as [| fuel]; [lia |].
  assert (Hall : Forall (fun kv => scans_back (snd kv)) d).
  { rewrite Forall_forall in *. intros x Hx. apply scan_once_dumps; auto. }
  cbn [json_dumps] in *. fold member_text in *. fold (members_text d) in *.
  cbn [append String.length] in *. rewrite length_append in Hfuel.
  cbn [String.length] in Hfuel.
  rewrite append_assoc. cbn [append].
  destruct d as [| kv d].
  - reflexivity.
  - inversion Hall as [| ? ? Hkv Hd]; subst.
    destruct (members_text (kv :: d) ++ String "}" rest) as [| c t] eqn:E.
    + exfalso. destruct d; [rewrite members_text_one in E
                           | rewrite members_text_cons in E]; discriminate.
    + assert (c = dq) as ->.
      { destruct d; [rewrite members_text_one in E
                    | rewrite members_text_cons in E]; now injection E. }
      cbn [scan_once]. cbn - [object_members OrderedDict].
      rewrite (object_members_dumps d Hd kv fuel rest Hkv); [| lia | exact E].
      reflexivity.
Qed.

(** X20: a stored text whose dict repeats a key deserialises to a dict
    that holds the key once, with the value given last; no key of the
    decoded dict is repeated. *)
Theorem deserialise_repeated_keys (d : list (string * json)) :
  Forall (fun kv => wf (snd kv)) d ->
  deserialise_clicks (json_dumps (JObj d)) = Ok (JObj (OrderedDict d)) /\
  NoDup (map fst (OrderedDict d)) /\
  (forall k, od_get k (OrderedDict d) = od_get k (List.rev d)) /\
  (forall k, In k (map fst (OrderedDict d)) <-> In k (map fst d)).
Proof.
  intros Hwf. split; [| split; [| split]].
  - unfold deserialise_clicks, json_loads.
    rewrite <- (append_nil_r (json_dumps (JObj d))) at 2.
    rewrite skip_ws_dumps, (scan_once_dumps_dict d Hwf);
      [reflexivity | lia | reflexivity].
  - pose proof (OrderedDict_wf d Hwf) as H. now apply wf_obj in H.
  - intros k. apply OrderedDict_get.
  - intros k. induction d as [| [k0 v0] d IH] using rev_ind; [reflexivity |].
    rewrite OrderedDict_snoc, od_set_keys_In, map_app, in_app_iff.
    apply Forall_app in Hwf as [Hwf _]. rewrite (IH Hwf). cbn. intuition auto.
Qed.

Lemma deserialise_repeated_keys_witness :
  deserialise_clicks
    (json_dumps (JObj [("Queen", JInt 1); ("Front", JInt 2); ("Queen", JInt 3)]))
  = Ok (JObj (OrderedDict [("Queen", JInt 1); ("Front", JInt 2); ("Queen", JInt 3)])) /\
  NoDup (map fst (OrderedDict [("Queen", JInt 1); ("Front", JInt 2); ("Queen", JInt 3)])) /\
  (forall k, od_get k (OrderedDict [("Queen", JInt 1); ("Front", JInt 2); ("Queen", JInt 3)])
             = od_get k (List.rev [("Queen", JInt 1); ("Front", JInt 2); ("Queen", JInt 3)])) /\
  (forall k, In k (map fst (OrderedDict [("Queen", JInt 1); ("Front", JInt 2); ("Queen", JInt 3)]))
             <-> In k (map fst [("Queen", JInt 1); ("Front", JInt 2); ("Queen", JInt 3)])).
Proof.
  apply (deserialise_repeated_keys
           [("Queen", JInt 1); ("Front", JInt 2); ("Queen", JInt 3)]).
  repeat constructor.
Defined.

(** ** Missing numbers *)

Lemma is_nan_Prim2SF (x : float) :
  PrimFloat.is_nan x = true -> Prim2SF x = S754_nan.
Proof.
  unfold PrimFloat.is_nan. rewrite eqb_spec. unfold SFeqb, SFcompare.
  destruct (Prim2SF x) as [s | s | | s m e]; try reflexivity.
  - discriminate.
  - destruct s; discriminate.
  - change (IntDef.Z.compare e e) with (Z.compare e e).
    change (PosDef.Pos.compare_cont Eq m m) with (Pos.compare_cont Eq m m).
    rewrite Z.compare_refl, Pos.compare_cont_refl. destruct s; discriminate.
Qed.

Lemma after_cell_class_nan (before after : float) :
  PrimFloat.is_nan before = true \/ PrimFloat.is_nan after = true ->
  after_cell_class before after = "same".
Proof.
  intros H. unfold after_cell_class.
  assert (E : Prim2SF (after - before) = S754_nan).
  { rewrite sub_spec. unfold SF64sub, SFsub.
    destruct H as [H | H]; apply is_nan_Prim2SF in H; rewrite H.
    - now destruct (Prim2SF after).
    - reflexivity. }
  rewrite !ltb_spec, E. unfold SFltb, SFcompare.
  destruct (Prim2SF THRESHOLD); destruct (Prim2SF (- THRESHOLD)); reflexivity.
Qed.

(** X21: a pair of cells of the view where the current or the baseline
    number is missing (NaN, as the pivot leaves a street without a
    measurement of one direction) is styled 'same': a missing number is
    never shown as better or worse. *)
Theorem generate_direction_cells_missing (before after : option float) :
  PrimFloat.is_nan (to_float before) = true
  \/ PrimFloat.is_nan (to_float after) = true ->
  map td_className (generate_direction_cells before after)
  = [Some "same"; Some "baseline"].
Proof.
  intros H. unfold generate_direction_cells. cbn [map td_className].
  now rewrite (after_cell_class_nan _ _ H).
Qed.

Lemma generate_direction_cells_missing_witness :
  map td_className (generate_direction_cells None (Some 3%float))
  = [Some "same"; Some "baseline"].
Proof.
  apply (generate_direction_cells_missing None (Some 3%float)).
  left. reflexivity.
Defined.
